(** * Inventory API server (apiserver.js): model and properties

    The server keeps a collection of items in one JSON file and serves five
    operations over HTTP.  The handlers are embedded below as functions over
    an explicit file state; the JavaScript values they manipulate (parsed
    JSON, numbers, strings) and the built-in operations they call
    ([JSON.parse], [parseFloat], [isFinite], [toLowerCase], ...) are modelled
    first, following ECMAScript. *)

From stdpp Require Import base tactics option list strings.
From Stdlib Require Import ZArith NArith Ascii String Bool Lia.
From Stdlib Require Import Floats.SpecFloat.

Local Open Scope string_scope.
Local Open Scope list_scope.

(** ** JavaScript numbers

    A JavaScript number is an IEEE 754 binary64 value.  The Standard
    Library's [spec_float] is the executable specification of these, with
    [prec = 53] and [emax = 1024]. *)

Module Number.

Definition number := spec_float.

Definition prec : Z := 53.
Definition emax : Z := 1024.

Definition NaN : number := S754_nan.
Definition Infinity : number := S754_infinity false.

(** The number nearest to the integer [z] (ties to even). *)
Definition of_Z (z : Z) : number := binary_normalize prec emax z 0 false.

(** The number nearest to [(-1)^neg * m * 10^e] (ties to even): the
    rounding of the mathematical value of a numeric literal. *)
Definition of_decimal (neg : bool) (m : N) (e : Z) : number :=
  match m with
  | N0 => S754_zero neg
  | Npos p =>
      if (0 <=? e)%Z
      then binary_round prec emax neg (p * Z.to_pos (10 ^ e)) 0
      else
        let '(q, e', l) :=
          SFdiv_core_binary prec emax (Zpos p) 0 (10 ^ (- e)) 0 in
        binary_round_aux prec emax neg q e' l
  end.

Definition is_nan (x : number) : bool :=
  match x with S754_nan => true | _ => false end.

Definition is_zero (x : number) : bool :=
  match x with S754_zero _ => true | _ => false end.

(** Neither NaN nor an infinity. *)
Definition is_finite (x : number) : bool :=
  match x with S754_zero _ | S754_finite _ _ _ => true | _ => false end.

(** [0 <= x] as JavaScript's [>=] decides it (false on NaN, true on -0). *)
Definition nonneg (x : number) : bool := SFleb (S754_zero false) x.

(** What a number becomes when it is written as decimal text by
    [Number::toString] and read back: the text determines the number,
    except that -0 is written "0". *)
Definition reread (x : number) : number :=
  match x with S754_zero _ => S754_zero false | _ => x end.

End Number.
Export Number.

(** ** JavaScript strings

    Strings are sequences of code units; the model covers the code units
    0..255 (Latin-1), one [ascii] each. *)

Module JSString.

Definition code (c : ascii) : N := N_of_ascii c.

(** [String.prototype.toLowerCase] on one code unit: A-Z, and the Latin-1
    capitals U+00C0..U+00DE except the multiplication sign U+00D7. *)
Definition lower_char (c : ascii) : ascii :=
  let n := code c in
  if ((65 <=? n) && (n <=? 90)
      || (192 <=? n) && (n <=? 222) && negb (n =? 215))%N
  then ascii_of_N (n + 32) else c.

Fixpoint toLowerCase (s : string) : string :=
  match s with
  | EmptyString => EmptyString
  | String c s' => String (lower_char c) (toLowerCase s')
  end.

(** StrWhiteSpaceChar: TAB, LF, VT, FF, CR, SP and NBSP. *)
Definition isWhiteSpace (c : ascii) : bool :=
  let n := code c in
  ((9 <=? n) && (n <=? 13) || (n =? 32) || (n =? 160))%N.

Fixpoint trimStart (s : string) : string :=
  match s with
  | String c s' => if isWhiteSpace c then trimStart s' else s
  | EmptyString => EmptyString
  end.

Fixpoint allWhiteSpace (s : string) : bool :=
  match s with
  | String c s' => isWhiteSpace c && allWhiteSpace s'
  | EmptyString => true
  end.

(** [s.split(sep)] for a one-character separator. *)
Fixpoint split (sep : ascii) (s : string) : list string :=
  match s with
  | EmptyString => [EmptyString]
  | String c s' =>
      if Ascii.eqb c sep then EmptyString :: split sep s'
      else match split sep s' with
           | piece :: pieces => String c piece :: pieces
           | [] => [String c EmptyString]
           end
  end.

Definition isEmpty (s : string) : bool :=
  match s with EmptyString => true | _ => false end.

End JSString.
Export JSString.

(** ** Numeric literals in strings

    [parseFloat] reads the longest prefix that is a StrDecimalLiteral;
    [Number(s)] (StringToNumber) wants the whole trimmed string to be a
    StrNumericLiteral.  Both use the same scanner. *)

Module Scan.

Definition isDigit (c : ascii) : bool :=
  ((48 <=? code c) && (code c <=? 57))%N.

Definition digitValue (c : ascii) : N := (code c - 48)%N.

(** Reads decimal digits: the value of [acc] followed by the digits read,
    how many were read, and the rest. *)
Fixpoint digits (acc : N) (count : nat) (s : string) : N * nat * string :=
  match s with
  | String c s' =>
      if isDigit c then digits (10 * acc + digitValue c)%N (S count) s'
      else (acc, count, s)
  | EmptyString => (acc, count, s)
  end.

(** ExponentPart, when a complete one is next. *)
Definition exponent (s : string) : Z * string :=
  match s with
  | String c s1 =>
      if Ascii.eqb c "e" || Ascii.eqb c "E" then
        let '(neg, s2) :=
          match s1 with
          | String "+" s2 => (false, s2)
          | String "-" s2 => (true, s2)
          | _ => (false, s1)
          end in
        match digits 0 0 s2 with
        | (_, O, _) => (0%Z, s)
        | (v, _, rest) => ((if neg then - Z.of_N v else Z.of_N v)%Z, rest)
        end
      else (0%Z, s)
  | EmptyString => (0%Z, s)
  end.

(** StrUnsignedDecimalLiteral, longest prefix. *)
Definition unsignedDecimal (neg : bool) (s : string)
  : option (number * string) :=
  match String.prefix "Infinity" s with
  | true => Some (S754_infinity neg, String.substring 8 (String.length s - 8) s)
  | false =>
      let '(ip, ni, r1) := digits 0 0 s in
      let mantissa :=
        match r1 with
        | String "." r1' =>
            let '(m, nf, r2) := digits ip 0 r1' in
            match ni, nf with
            | O, O => None
            | _, _ => Some (m, nf, r2)
            end
        | _ => match ni with O => None | _ => Some (ip, O, r1) end
        end in
      match mantissa with
      | None => None
      | Some (m, nf, r2) =>
          let '(e, rest) := exponent r2 in
          Some (of_decimal neg m (e - Z.of_nat nf), rest)
      end
  end.

(** StrDecimalLiteral, longest prefix: the value and the rest. *)
Definition decimal (s : string) : option (number * string) :=
  match s with
  | String "+" s' => unsignedDecimal false s'
  | String "-" s' => unsignedDecimal true s'
  | _ => unsignedDecimal false s
  end.

Definition digitIn (radix : N) (c : ascii) : option N :=
  let n := code c in
  let v := (if isDigit c then Some (n - 48)
            else if (97 <=? n) && (n <=? 102) then Some (n - 87)
            else if (65 <=? n) && (n <=? 70) then Some (n - 55)
            else None)%N in
  match v with
  | Some d => if (d <? radix)%N then Some d else None
  | None => None
  end.

Fixpoint radixDigits (radix acc : N) (count : nat) (s : string)
  : N * nat * string :=
  match s with
  | String c s' =>
      match digitIn radix c with
      | Some d => radixDigits radix (radix * acc + d)%N (S count) s'
      | None => (acc, count, s)
      end
  | EmptyString => (acc, count, s)
  end.

(** NonDecimalIntegerLiteral: 0x, 0o or 0b and at least one digit. *)
Definition nonDecimal (s : string) : option (number * string) :=
  match s with
  | String "0" (String c s') =>
      let radix : option N :=
        if Ascii.eqb c "x" || Ascii.eqb c "X" then Some 16%N
        else if Ascii.eqb c "o" || Ascii.eqb c "O" then Some 8%N
        else if Ascii.eqb c "b" || Ascii.eqb c "B" then Some 2%N
        else None in
      match radix with
      | Some r =>
          match radixDigits r 0 0 s' with
          | (_, O, _) => None
          | (v, _, rest) => Some (of_Z (Z.of_N v), rest)
          end
      | None => None
      end
  | _ => None
  end.

(** [parseFloat] applied to a string. *)
Definition parseFloatString (s : string) : number :=
  match decimal (trimStart s) with
  | Some (x, _) => x
  | None => NaN
  end.

(** StringToNumber: [Number(s)]. *)
Definition StringToNumber (s : string) : number :=
  let t := trimStart s in
  if isEmpty t then S754_zero false
  else
    match nonDecimal t with
    | Some (x, rest) => if allWhiteSpace rest then x else NaN
    | None =>
        match decimal t with
        | Some (x, rest) => if allWhiteSpace rest then x else NaN
        | None => NaN
        end
    end.

End Scan.
Export Scan.

Set Warnings "-register-all".

(** ** JavaScript values

    The values the server handles come from [JSON.parse], plus [undefined]
    (what reading a missing property gives).  An object is its list of own
    properties, in order. *)

Inductive value :=
| Undefined
| Null
| Bool (b : bool)
| Num (x : number)
| Str (s : string)
| Arr (elements : list value)
| Obj (properties : list (string * value)).

(** Exceptions, by constructor, with their [message]. *)
Inductive exn :=
| SyntaxError (message : string)
| TypeError (message : string)
| Error (message : string).

Definition message_of (e : exn) : string :=
  match e with SyntaxError m | TypeError m | Error m => m end.

(** [error instanceof SyntaxError] *)
Definition instanceofSyntaxError (e : exn) : bool :=
  match e with SyntaxError _ => true | _ => false end.

(** The outcome of evaluating an expression: a value or a thrown exception. *)
Inductive result (A : Type) :=
| Ok (a : A)
| Throw (e : exn).
Arguments Ok {A} a.
Arguments Throw {A} e.

Module JS.

Fixpoint lookup (k : string) (props : list (string * value)) : option value :=
  match props with
  | [] => None
  | (k', v) :: props' => if String.eqb k' k then Some v else lookup k props'
  end.

(** [props[k] = v]: an existing property keeps its place, a new one goes
    last. *)
Fixpoint assign (k : string) (v : value) (props : list (string * value))
  : list (string * value) :=
  match props with
  | [] => [(k, v)]
  | (k', v') :: props' =>
      if String.eqb k' k then (k, v) :: props'
      else (k', v') :: assign k v props'
  end.

(** [o.k] for the data properties the server reads ([id], [name],
    [price], [size]): own properties of an object; no primitive and no
    array has them; reading from [null] or [undefined] throws. *)
Definition get (o : value) (k : string) : result value :=
  match o with
  | Undefined => Throw (TypeError ("Cannot read properties of undefined (reading '" ++ k ++ "')"))
  | Null => Throw (TypeError ("Cannot read properties of null (reading '" ++ k ++ "')"))
  | Obj props => Ok (default Undefined (lookup k props))
  | _ => Ok Undefined
  end.

(** [o.k = v] on an object. *)
Definition set (o : value) (k : string) (v : value) : value :=
  match o with
  | Obj props => Obj (assign k v props)
  | _ => o
  end.

(** ToBoolean *)
Definition truthy (v : value) : bool :=
  match v with
  | Undefined | Null => false
  | Bool b => b
  | Num x => negb (is_zero x || is_nan x)
  | Str s => negb (isEmpty s)
  | Arr _ | Obj _ => true
  end.

(** [v !== undefined] *)
Definition isDefined (v : value) : bool :=
  match v with Undefined => false | _ => true end.

(** [v === s] for a string [s] *)
Definition strictEqualsString (v : value) (s : string) : bool :=
  match v with Str s' => String.eqb s' s | _ => false end.

(** [strings.includes(v)] for an array of strings *)
Definition includes (strings : list string) (v : value) : bool :=
  existsb (strictEqualsString v) strings.

(** [v.toLowerCase()]: the method exists on strings only; on any other
    value the call throws.  [receiver] is the text of the expression [v]
    comes from, which the message of the error names. *)
Definition callToLowerCase (receiver : string) (v : value) : result string :=
  match v with
  | Str s => Ok (toLowerCase s)
  | Undefined =>
      Throw (TypeError "Cannot read properties of undefined (reading 'toLowerCase')")
  | Null =>
      Throw (TypeError "Cannot read properties of null (reading 'toLowerCase')")
  | _ => Throw (TypeError (receiver ++ ".toLowerCase is not a function"))
  end.

(** Whether ToString (equally ToPrimitive) of [v] completes.  An object
    parsed from JSON converts through [Object.prototype.toString] unless
    an own property named [toString] (never callable) hides it; an array
    converts through [join], which converts every element but [null] and
    [undefined]. *)
Fixpoint convertible (v : value) : bool :=
  match v with
  | Obj props => negb (existsb (fun p => String.eqb (fst p) "toString") props)
  | Arr l => forallb convertible l
  | _ => true
  end.

(** [parseFloat(v)] when ToString completes: [parseFloat] reads a prefix
    of ToString(v).  A number's text reads back as the number. The texts
    of [undefined], [null], booleans and objects ("[object Object]") start
    with no numeric literal.  An array's text is its elements' texts
    joined by commas, and a comma ends any literal: only the first
    element counts. *)
Fixpoint parseFloatOf (v : value) : number :=
  match v with
  | Num x => reread x
  | Str s => parseFloatString s
  | Arr (first :: _) => parseFloatOf first
  | _ => NaN
  end.

Definition cannotConvert : exn :=
  TypeError "Cannot convert object to primitive value".

Definition parseFloat (v : value) : result number :=
  if convertible v then Ok (parseFloatOf v) else Throw cannotConvert.

(** ToNumber(v) when ToPrimitive completes.  Objects and arrays go
    through their text: "[object Object]" is no number; an array's text
    is empty for [[]], its element's text for one element ([null] and
    [undefined] giving the empty text, which is 0), and holds a comma
    otherwise. *)
Fixpoint ToNumberOf (v : value) : number :=
  match v with
  | Undefined => NaN
  | Null => S754_zero false
  | Bool b => if b then of_Z 1 else S754_zero false
  | Num x => x
  | Str s => StringToNumber s
  | Obj _ => NaN
  | Arr [] => S754_zero false
  | Arr [e] =>
      match e with
      | Undefined | Null => S754_zero false
      | Bool _ => NaN
      | Num x => reread x
      | _ => ToNumberOf e
      end
  | Arr _ => NaN
  end.

(** The global [isFinite(v)]. *)
Definition isFinite (v : value) : result bool :=
  if convertible v then Ok (is_finite (ToNumberOf v)) else Throw cannotConvert.

(** The global [isNaN] on a number. *)
Definition isNaN (x : number) : bool := is_nan x.

(** What [JSON.parse(JSON.stringify(v))] is: [undefined] properties are
    dropped, [undefined] elements and the numbers without a JSON form
    become [null], and -0 is written "0". *)
Definition jsonProperties (json : value -> value)
  : list (string * value) -> list (string * value) :=
  fix go props :=
    match props with
    | [] => []
    | (k, v) :: props' =>
        if isDefined v then (k, json v) :: go props' else go props'
    end.

Fixpoint json (v : value) : value :=
  match v with
  | Num x => if is_finite x then Num (reread x) else Null
  | Arr l => Arr (map (fun e => if isDefined e then json e else Null) l)
  | Obj props => Obj (jsonProperties json props)
  | _ => v
  end.

End JS.
Export JS.

(** ** JSON text

    A text (the request body, the content of the file) matters to the
    server only through what [JSON.parse] makes of it, and whether it is
    the empty string. *)
Inductive text :=
| Blank                (* the empty string *)
| Garbage              (* a non-empty text that is not JSON *)
| JSON (v : value).    (* the text of the JSON value [v] *)

Definition JSON_parse (t : text) : result value :=
  match t with
  | JSON v => Ok v
  | Blank => Throw (SyntaxError "Unexpected end of JSON input")
  | Garbage => Throw (SyntaxError "Unexpected token in JSON")
  end.

(** [JSON.stringify(v, null, 2)] of a value that is not [undefined]. *)
Definition JSON_stringify (v : value) : text := JSON (json v).

(** ** The file and the environment

    [ITEMS_FILE] is the only state: its content, or [None] while the file
    does not exist.  What a request draws from its environment is the
    identifier [randomUUID()] returns and whether [fs.promises.writeFile]
    succeeds.  A file that exists can be read; a failed write leaves the
    file as it was.  Requests are served one after the other. *)

Definition disk := option text.

Record env := {
  uuid : string;       (* what randomUUID() returns *)
  writable : bool      (* whether writeFile succeeds *)
}.

(** Computations on the file that may throw. *)
Definition IO (A : Type) := disk -> disk * result A.

Definition ret {A} (a : A) : IO A := fun d => (d, Ok a).

Definition bind {A B} (m : IO A) (k : A -> IO B) : IO B :=
  fun d =>
    match m d with
    | (d', Ok a) => k a d'
    | (d', Throw e) => (d', Throw e)
    end.

(** A pure expression that may throw. *)
Definition eval {A} (r : result A) : IO A := fun d => (d, r).

(** A computation that never throws. *)
Definition total {A} (f : disk -> disk * A) : IO A :=
  fun d => let '(d', a) := f d in (d', Ok a).

(** [try { body } catch (error) { handler }] *)
Definition try_catch {A} (body : IO A) (handler : exn -> IO A) : IO A :=
  fun d =>
    match body d with
    | (d', Ok a) => (d', Ok a)
    | (d', Throw e) => handler e d'
    end.

(** The same when the handler only returns. *)
Definition try_catch_return {A} (body : IO A) (handler : exn -> A)
  : disk -> disk * A :=
  fun d =>
    match body d with
    | (d', Ok a) => (d', a)
    | (d', Throw e) => (d', handler e)
    end.

Declare Scope io_scope.
Delimit Scope io_scope with io.
Notation "x <- m ;; k" := (bind m (fun x => k))
  (at level 100, m at next level, right associativity) : io_scope.
Notation "m ;; k" := (bind m (fun _ => k))
  (at level 100, right associativity) : io_scope.
Local Open Scope io_scope.

Definition existsSync : IO bool := fun d => (d, Ok (bool_decide (is_Some d))).

Definition readFile : IO text :=
  fun d =>
    match d with
    | Some t => (d, Ok t)
    | None => (d, Throw (Error "ENOENT: no such file or directory"))
    end.

Definition writeFile (e : env) (t : text) : IO unit :=
  fun d =>
    if writable e then (Some t, Ok tt)
    else (d, Throw (Error "EACCES: permission denied")).

(** ** Persistence *)

Definition readItems (e : env) : disk -> disk * value :=
  try_catch_return
    (present <- existsSync ;;
     if negb present then
       writeFile e (JSON (Arr [])) ;;
       ret (Arr [])
     else
       data <- readFile ;;
       match data with
       | Blank => ret (Arr [])
       | _ => eval (JSON_parse data)
       end)
    (fun error => Arr []).

Definition writeItems (e : env) (items : value) : IO unit :=
  try_catch
    (writeFile e (JSON_stringify items))
    (fun error => eval (Throw (Error "Failed to persist items."))).

(** ** Responses

    A response is the status code of [writeHead] and the envelope
    [{success, message, data}] as the client reads it back from the body. *)

Record response := {
  status : nat;
  success : bool;
  message : string;
  data : value
}.

Definition sendJsonResponse
  (statusCode : nat) (success : bool) (message : string) (data : value)
  : response :=
  {| status := statusCode;
     success := success;
     message := message;
     data := json (match data with Undefined => Null | _ => data end) |}.

(** ** Array methods, with a callback that may throw *)

(** [items.m(...)] needs [items] to be an array. *)
Definition asArray (method : string) (items : value) : result (list value) :=
  match items with
  | Arr l => Ok l
  | Undefined | Null =>
      Throw (TypeError ("Cannot read properties of null (reading '" ++ method ++ "')"))
  | _ => Throw (TypeError ("items." ++ method ++ " is not a function"))
  end.

(** [items.length]: reading it from [null] or [undefined] throws; an
    array and a string have one, any other value gives [undefined], here
    [None]. *)
Definition lengthOf (items : value) : result (option nat) :=
  match items with
  | Undefined =>
      Throw (TypeError "Cannot read properties of undefined (reading 'length')")
  | Null =>
      Throw (TypeError "Cannot read properties of null (reading 'length')")
  | Arr l => Ok (Some (List.length l))
  | Str s => Ok (Some (String.length s))
  | _ => Ok None
  end.

(** The callback [i => i.id === itemId] *)
Definition hasId (itemId : string) (i : value) : result bool :=
  match get i "id" with
  | Ok v => Ok (strictEqualsString v itemId)
  | Throw e => Throw e
  end.

Fixpoint find (p : value -> result bool) (l : list value) : result value :=
  match l with
  | [] => Ok Undefined
  | i :: l' =>
      match p i with
      | Ok true => Ok i
      | Ok false => find p l'
      | Throw e => Throw e
      end
  end.

(** [None] stands for -1. *)
Fixpoint findIndex (p : value -> result bool) (l : list value)
  : result (option nat) :=
  match l with
  | [] => Ok None
  | i :: l' =>
      match p i with
      | Ok true => Ok (Some 0)
      | Ok false =>
          match findIndex p l' with
          | Ok index => Ok (S <$> index)
          | Throw e => Throw e
          end
      | Throw e => Throw e
      end
  end.

(** [l.filter(i => !p(i))] *)
Fixpoint filterNot (p : value -> result bool) (l : list value)
  : result (list value) :=
  match l with
  | [] => Ok []
  | i :: l' =>
      match p i with
      | Ok b =>
          match filterNot p l' with
          | Ok kept => Ok (if b then kept else i :: kept)
          | Throw e => Throw e
          end
      | Throw e => Throw e
      end
  end.

(** [`${v}`] where [v] is a string (every interpolated value is one: a
    path segment, or a size on which [toLowerCase] was called). *)
Definition interpolate (v : value) : string :=
  match v with Str s => s | _ => "" end.

(** ** The handlers *)

Definition validSizes : list string := ["s"; "m"; "l"].

Definition notFound (itemId : string) : response :=
  sendJsonResponse 404 false ("Item with ID " ++ itemId ++ " not found.") Null.

Definition invalidSize (size : value) : response :=
  sendJsonResponse 400 false
    ("Invalid size '" ++ interpolate size ++ "'. Must be 's', 'm', or 'l'.") Null.

Definition invalidPrice : response :=
  sendJsonResponse 400 false "Price must be a valid number." Null.

(** [isNaN(parseFloat(price)) || !isFinite(price)] *)
Definition priceIsInvalid (price : value) : IO bool :=
  parsed <- eval (parseFloat price) ;;
  if isNaN parsed then ret true
  else finite <- eval (isFinite price) ;; ret (negb finite).

(** GET /items *)
Definition handleGetAllItems (e : env) : disk -> disk * response :=
  try_catch_return
    (items <- total (readItems e) ;;
     ret (sendJsonResponse 200 true "Successfully retrieved all items." items))
    (fun error =>
       sendJsonResponse 500 false "Internal server error while retrieving items." Null).

(** GET /items/:id *)
Definition handleGetOneItem (e : env) (itemId : string)
  : disk -> disk * response :=
  try_catch_return
    (items <- total (readItems e) ;;
     l <- eval (asArray "find" items) ;;
     item <- eval (find (hasId itemId) l) ;;
     if truthy item then
       ret (sendJsonResponse 200 true "Successfully retrieved item." item)
     else
       ret (notFound itemId))
    (fun error =>
       sendJsonResponse 500 false "Internal server error while retrieving item." Null).

(** POST /items, once the body has arrived *)
Definition handleCreateItem (e : env) (body : text) : disk -> disk * response :=
  try_catch_return
    (newItemData <- eval (JSON_parse body) ;;
     name <- eval (get newItemData "name") ;;
     price <- eval (get newItemData "price") ;;
     size <- eval (get newItemData "size") ;;
     if negb (truthy name) || negb (truthy price) || negb (truthy size) then
       ret (sendJsonResponse 400 false
              "Missing required fields: name, price, and size are mandatory." Null)
     else
       lowered <- eval (callToLowerCase "newItemData.size" size) ;;
       if negb (includes validSizes (Str lowered)) then
         ret (invalidSize size)
       else
         invalid <- priceIsInvalid price ;;
         if invalid then ret invalidPrice
         else
           items <- total (readItems e) ;;
           parsed <- eval (parseFloat price) ;;
           lowered <- eval (callToLowerCase "newItemData.size" size) ;;
           let newItem :=
             Obj [("id", Str (uuid e)); ("name", name);
                  ("price", Num parsed); ("size", Str lowered)] in
           l <- eval (asArray "push" items) ;;
           writeItems e (Arr (l ++ [newItem])) ;;
           ret (sendJsonResponse 201 true "Item created successfully." newItem))
    (fun error =>
       if instanceofSyntaxError error then
         sendJsonResponse 400 false "Invalid JSON format in request body." Null
       else
         sendJsonResponse 500 false
           ("Internal server error while creating item: " ++ message_of error) Null).

(** PUT /items/:id, once the body has arrived *)
Definition handleUpdateItem (e : env) (itemId : string) (body : text)
  : disk -> disk * response :=
  try_catch_return
    (updatedItemData <- eval (JSON_parse body) ;;
     items <- total (readItems e) ;;
     l <- eval (asArray "findIndex" items) ;;
     found <- eval (findIndex (hasId itemId) l) ;;
     match found with
     | Some index =>
         let item := default Undefined (l !! index) in
         name <- eval (get updatedItemData "name") ;;
         name' <- eval (if isDefined name then Ok name else get item "name") ;;
         let item := set item "name" name' in
         price <- eval (get updatedItemData "price") ;;
         price' <- eval (if isDefined price
                         then match parseFloat price with
                              | Ok parsed => Ok (Num parsed)
                              | Throw error => Throw error
                              end
                         else get item "price") ;;
         let item := set item "price" price' in
         size <- eval (get updatedItemData "size") ;;
         size' <- eval (if isDefined size
                        then match callToLowerCase "updatedItemData.size" size with
                             | Ok lowered => Ok (Str lowered)
                             | Throw error => Throw error
                             end
                        else get item "size") ;;
         let item := set item "size" size' in
         badSize <- (if isDefined size
                     then stored <- eval (get item "size") ;;
                          ret (negb (includes validSizes stored))
                     else ret false) ;;
         if badSize then ret (invalidSize size)
         else
           invalid <- (if isDefined price then priceIsInvalid price else ret false) ;;
           if invalid then ret invalidPrice
           else
             writeItems e (Arr (<[index := item]> l)) ;;
             ret (sendJsonResponse 200 true "Item updated successfully." item)
     | None => ret (notFound itemId)
     end)
    (fun error =>
       if instanceofSyntaxError error then
         sendJsonResponse 400 false "Invalid JSON format in request body." Null
       else
         sendJsonResponse 500 false
           ("Internal server error while updating item: " ++ message_of error) Null).

(** DELETE /items/:id *)
Definition handleDeleteItem (e : env) (itemId : string)
  : disk -> disk * response :=
  try_catch_return
    (items <- total (readItems e) ;;
     initialLength <- eval (lengthOf items) ;;
     l <- eval (asArray "filter" items) ;;
     kept <- eval (filterNot (hasId itemId) l) ;;
     if match initialLength with
        | Some n => (List.length kept <? n)%nat
        | None => false
        end
     then
       writeItems e (Arr kept) ;;
       ret (sendJsonResponse 200 true "Item deleted successfully." Null)
     else
       ret (notFound itemId))
    (fun error =>
       sendJsonResponse 500 false
         ("Internal server error while deleting item: " ++ message_of error) Null).

(** ** Routing *)

Record request := {
  method : string;
  url : string;
  body : text
}.

(** [req.url.split('/').filter(Boolean)] *)
Definition segments (url : string) : list string :=
  List.filter (fun piece => negb (isEmpty piece)) (split "/" url).

Definition methodNotAllowed : response :=
  sendJsonResponse 405 false "Method Not Allowed or Invalid API Endpoint." Null.

Definition endpointNotFound : response :=
  sendJsonResponse 404 false "API Endpoint Not Found." Null.

(** The request listener.  [urlBase] and [itemId] are the first two
    segments, [None] standing for [undefined]; a segment is never empty, so
    [itemId] is truthy exactly when it is there. *)
Definition apiServer (e : env) (req : request) : disk -> disk * response :=
  let urlBase := segments (url req) !! 0%nat in
  let itemId := segments (url req) !! 1%nat in
  let hasItemId := bool_decide (is_Some itemId) in
  let id := default "" itemId in
  if bool_decide (urlBase = Some "items") then
    if String.eqb (method req) "GET" then
      if hasItemId then handleGetOneItem e id
      else handleGetAllItems e
    else if String.eqb (method req) "POST" && negb hasItemId then
      handleCreateItem e (body req)
    else if String.eqb (method req) "PUT" && hasItemId then
      handleUpdateItem e id (body req)
    else if String.eqb (method req) "DELETE" && hasItemId then
      handleDeleteItem e id
    else
      fun d => (d, methodNotAllowed)
  else
    fun d => (d, endpointNotFound).

(** ** Sequences of mutating operations *)

Inductive operation :=
| Create (body : text)
| Update (itemId : string) (body : text)
| Delete (itemId : string).

Definition perform (e : env) (o : operation) : disk -> disk * response :=
  match o with
  | Create body => handleCreateItem e body
  | Update itemId body => handleUpdateItem e itemId body
  | Delete itemId => handleDeleteItem e itemId
  end.

(** The file after the operations of [trace], each with its environment. *)
Fixpoint run (trace : list (env * operation)) (d : disk) : disk :=
  match trace with
  | [] => d
  | (e, o) :: trace' => run trace' (fst (perform e o d))
  end.

(** * The static file server (webserver.js)

    The server reads two files next to it, [index.html] and [404.html];
    [files] gives the content of a file that can be read, by its name in
    that directory.  A reply is what [writeHead] and [end] send.  The files
    do not change while a request is served. *)

Module WebServer.

Definition files := string -> option string.

Record reply := {
  statusCode : nat;
  contentType : string;
  content : string
}.

(** [s.endsWith(suffix)] *)
Fixpoint endsWith (suffix s : string) : bool :=
  String.eqb s suffix
  || match s with
     | String _ s' => endsWith suffix s'
     | EmptyString => false
     end.

Definition serve404Page (fs : files) : reply :=
  let notFoundPath := "404.html" in
  match fs notFoundPath with
  | None =>
      {| statusCode := 500; contentType := "text/plain";
         content := "500 Internal Server Error: 404 page not found." |}
  | Some data =>
      {| statusCode := 404; contentType := "text/html"; content := data |}
  end.

(** [statusCode] is [None] where the call leaves it out: it is then 200. *)
Definition serveFile (fs : files) (filePath contentType : string)
  (statusCode : option nat) : reply :=
  match fs filePath with
  | None => serve404Page fs
  | Some data =>
      {| statusCode := default 200%nat statusCode;
         contentType := contentType; content := data |}
  end.

Record request := {
  method : string;
  url : string
}.

Definition webServer (fs : files) (req : request) : reply :=
  let urlPath := if String.eqb (url req) "/" then "/index.html" else url req in
  if String.eqb urlPath "/index.html" then
    let filePath := "index.html" in
    serveFile fs filePath "text/html" None
  else if endsWith ".html" urlPath then
    serve404Page fs
  else
    serve404Page fs.

End WebServer.

(** * Notions used in the statements *)

(** What [readItems] returns on the file [d]. *)
Definition loaded (d : disk) : value :=
  match d with
  | Some (JSON v) => v
  | _ => Arr []
  end.

(** The file [readItems] leaves: an absent file is created, if it can be. *)
Definition afterLoad (e : env) (d : disk) : disk :=
  match d with
  | None => if writable e then Some (JSON (Arr [])) else None
  | Some _ => d
  end.

(** Built-in operations throw [TypeError]s only. *)
Definition throwsTypeError {A} (r : result A) : Prop :=
  match r with
  | Throw (TypeError _) | Ok _ => True
  | Throw _ => False
  end.

(** [o.k], or [undefined] where reading throws. *)
Definition prop (o : value) (k : string) : value :=
  match get o k with
  | Ok v => v
  | Throw _ => Undefined
  end.

(** The item [handleCreateItem] builds from an accepted payload. *)
Definition created (e : env) (payload : value) : value :=
  Obj [("id", Str (uuid e));
       ("name", prop payload "name");
       ("price", Num (parseFloatOf (prop payload "price")));
       ("size", Str (toLowerCase (interpolate (prop payload "size"))))].

(** [typeof v === 'string'] *)
Definition isString (v : value) : bool :=
  match v with Str _ => true | _ => false end.

(** The tests a payload passes on the way to 201, in the handler's order. *)
Definition passesCreate (payload : value) : bool :=
  let name := prop payload "name" in
  let price := prop payload "price" in
  let size := prop payload "size" in
  truthy name && truthy price && truthy size
  && isString size
  && includes validSizes (Str (toLowerCase (interpolate size)))
  && convertible price
  && negb (is_nan (parseFloatOf price))
  && is_finite (ToNumberOf price).

(** "Parseable as a finite number", with the conversions the server uses. *)
Definition parseableFinite (price : value) : bool :=
  match parseFloat price, isFinite price with
  | Ok x, Ok finite => negb (is_nan x) && finite
  | _, _ => false
  end.

(** "Case-insensitively, one of the valid enumeration values". *)
Definition inEnumeration (size : value) : bool :=
  isString size && includes validSizes (Str (toLowerCase (interpolate size))).

(** The rule as the specification words it: name present and non-empty,
    price parseable as a finite non-negative number, size in the
    enumeration. *)
Definition spec_validateForCreate (payload : value) : bool :=
  truthy (prop payload "name")
  && (parseableFinite (prop payload "price")
      && nonneg (parseFloatOf (prop payload "price")))
  && inEnumeration (prop payload "size").

(** The same rule without the sign condition. *)
Definition signless_validateForCreate (payload : value) : bool :=
  truthy (prop payload "name")
  && parseableFinite (prop payload "price")
  && inEnumeration (prop payload "size").

(** The numbers 0 and -0. *)
Definition isZeroNumber (v : value) : bool :=
  match v with Num x => is_zero x | _ => false end.

(** An environment, a payload, an item and a file for the examples. *)
Definition anEnv : env :=
  {| uuid := "3b241101-e2bb-4255-8caf-4136c566a962"; writable := true |}.

Definition payloadOf (name price size : value) : value :=
  Obj [("name", name); ("price", price); ("size", size)].

(** An array element as it is written and read back. *)
Definition jsonElement (v : value) : value :=
  if isDefined v then json v else Null.

Definition isObject (v : value) : bool :=
  match v with Obj _ => true | _ => false end.

(** An item as the file holds it: an object, in the form [JSON.stringify]
    writes (writing it and reading it back gives the same object). *)
Definition storedItem (i : value) : Prop :=
  isObject i = true /\ json i = i.

(** The file holds a collection: an array of such items. *)
Definition collection (l : list value) : Prop := Forall storedItem l.

(** [i.id === itemId], where reading [i.id] does not throw. *)
Definition idIs (itemId : string) (i : value) : bool :=
  strictEqualsString (prop i "id") itemId.

(** [l.filter(i => i.id !== itemId)] *)
Definition without (itemId : string) (l : list value) : list value :=
  List.filter (fun i => negb (idIs itemId i)) l.

Definition anItem (id name : string) (price : Z) (size : string) : value :=
  Obj [("id", Str id); ("name", Str name); ("price", Num (of_Z price));
       ("size", Str size)].

(** The position of the first item whose id is [itemId]. *)
Fixpoint indexOf (itemId : string) (l : list value) : option nat :=
  match l with
  | [] => None
  | i :: l' => if idIs itemId i then Some 0%nat else S <$> indexOf itemId l'
  end.

(** A payload whose properties can be read. *)
Definition readable (payload : value) : bool :=
  match payload with Undefined | Null => false | _ => true end.

(** The item after the three assignments of [handleUpdateItem]. *)
Definition updated (item payload : value) : value :=
  let name := prop payload "name" in
  let item := set item "name" (if isDefined name then name else prop item "name") in
  let price := prop payload "price" in
  let item :=
    set item "price"
      (if isDefined price then Num (parseFloatOf price) else prop item "price") in
  let size := prop payload "size" in
  set item "size"
    (if isDefined size then Str (toLowerCase (interpolate size))
     else prop item "size").

(** The tests a payload passes on the way to 200, in the handler's order. *)
Definition passesUpdate (payload : value) : bool :=
  let price := prop payload "price" in
  let size := prop payload "size" in
  (negb (isDefined size)
   || isString size
      && includes validSizes (Str (toLowerCase (interpolate size))))
  && (negb (isDefined price)
      || convertible price && negb (is_nan (parseFloatOf price))
         && is_finite (ToNumberOf price)).

(** The rule as the specification words it: each field that is present is
    validated as on create (name non-empty, price finite and non-negative,
    size in the enumeration). *)
Definition spec_validateForUpdate (payload : value) : bool :=
  let name := prop payload "name" in
  let price := prop payload "price" in
  let size := prop payload "size" in
  (negb (isDefined name) || truthy name)
  && (negb (isDefined price)
      || parseableFinite price && nonneg (parseFloatOf price))
  && (negb (isDefined size) || inEnumeration size).

(** The tests on price and size only, without the sign condition. *)
Definition signless_validateForUpdate (payload : value) : bool :=
  let price := prop payload "price" in
  let size := prop payload "size" in
  (negb (isDefined price) || parseableFinite price)
  && (negb (isDefined size) || inEnumeration size).

(** The file that holds the array [l]. *)
Definition storeOf (l : list value) : disk := Some (JSON (Arr l)).

(** The message of [r] is the one that quotes the size. *)
Definition echoes (size : string) (r : response) : Prop :=
  message r = ("Invalid size '" ++ size ++ "'. Must be 's', 'm', or 'l'.")%string.

(** The three conditions on a persisted item. *)
Definition hasNonEmptyId (i : value) : Prop :=
  exists id, prop i "id" = Str id /\ id <> "".

Definition hasFinitePrice (i : value) : Prop :=
  exists price, prop i "price" = Num price /\ is_finite price = true.

Definition hasNonNegativePrice (i : value) : Prop :=
  exists price, prop i "price" = Num price /\ nonneg price = true.

Definition hasValidSize (i : value) : Prop :=
  exists size, prop i "size" = Str size /\ In size validSizes.

(** The invariant as the specification words it. *)
Definition spec_itemInvariant (i : value) : Prop :=
  hasNonEmptyId i /\ hasNonNegativePrice i /\ hasValidSize i.

(** The same with a price that is a finite number of either sign. *)
Definition itemInvariant (i : value) : Prop :=
  hasNonEmptyId i /\ hasFinitePrice i /\ hasValidSize i.

(** What the proof carries along: the item is also in stored form. *)
Definition validItem (i : value) : Prop := storedItem i /\ itemInvariant i.

(** The envelope [{success: false, message, data: null}]. *)
Definition failureEnvelope (r : response) : Prop :=
  success r = false /\ data r = Null.

(** [Array.isArray(v)] *)
Definition isArray (v : value) : bool :=
  match v with Arr _ => true | _ => false end.

(** The elements of the loaded document when it is an array. *)
Definition elementsOf (v : value) : list value :=
  match v with Arr l => l | _ => [] end.

(** The ids of the items of a collection, in order. *)
Definition ids (l : list value) : list value :=
  map (fun i => prop i "id") l.

(** Every create of the trace draws an identifier that no item has at that
    moment. *)
Fixpoint freshRun (trace : list (env * operation)) (d : disk) : Prop :=
  match trace with
  | [] => True
  | (e, o) :: trace' =>
      match o with
      | Create _ => existsb (idIs (uuid e)) (elementsOf (loaded d)) = false
      | _ => True
      end
      /\ freshRun trace' (fst (perform e o d))
  end.

(** The statuses the API answers with, the success flag that goes with
    each, and [null] data on every failure. *)
Definition envelopeOk (r : response) : Prop :=
  In (status r) [200; 201; 400; 404; 405; 500]%nat
  /\ success r = (status r <? 300)%nat
  /\ (success r = false -> data r = Null).

(** [Q] holds of the file and the outcome that [m] gives on the file [d]. *)
Definition holds {A} (m : IO A) (d : disk) (Q : disk -> result A -> Prop)
  : Prop :=
  Q (fst (m d)) (snd (m d)).

(** The six strings that are a size, whatever the case. *)
Definition sizeSpellings : list string := ["s"; "S"; "m"; "M"; "l"; "L"].

(** * Properties *)

(** ** Loading *)

Lemma readItems_eq e d : readItems e d = (afterLoad e d, loaded d).
Proof.
  destruct d as [[| |v]|]; try reflexivity.
  unfold readItems, try_catch_return, bind, existsSync, writeFile; simpl.
  destruct (writable e); reflexivity.
Qed.

Lemma writeItems_eq e items d :
  writeItems e items d =
  if writable e then (Some (JSON (json items)), Ok tt)
  else (d, Throw (Error "Failed to persist items.")).
Proof.
  unfold writeItems, try_catch, writeFile, JSON_stringify, eval.
  destruct (writable e); reflexivity.
Qed.

Lemma loaded_afterLoad e d : loaded (afterLoad e d) = loaded d.
Proof. destruct d; simpl; [done|]. by destruct (writable e). Qed.

Lemma found_afterLoad e d l itemId index :
  asArray "findIndex" (loaded d) = Ok l ->
  findIndex (hasId itemId) l = Ok (Some index) ->
  afterLoad e d = d.
Proof.
  destruct d; [reflexivity|]. simpl. intros. by simplify_eq.
Qed.

#[global] Arguments includes : simpl never.
#[global] Arguments json : simpl never.
#[global] Arguments jsonProperties : simpl never.
#[global] Arguments parseFloatOf : simpl never.
#[global] Arguments ToNumberOf : simpl never.
#[global] Arguments convertible : simpl never.
#[global] Arguments writeItems : simpl never.
#[global] Arguments readItems : simpl never.

Ltac run_io :=
  unfold try_catch_return, bind, eval, total, ret; simpl.

Lemma get_throws o k : throwsTypeError (get o k).
Proof. destruct o; exact I. Qed.

Lemma callToLowerCase_throws receiver v :
  throwsTypeError (callToLowerCase receiver v).
Proof. destruct v; exact I. Qed.

Lemma asArray_throws m v : throwsTypeError (asArray m v).
Proof. destruct v; exact I. Qed.

Lemma hasId_throws itemId i : throwsTypeError (hasId itemId i).
Proof. unfold hasId. destruct i; exact I. Qed.

Lemma find_throws itemId l : throwsTypeError (find (hasId itemId) l).
Proof.
  induction l as [|i l IH]; simpl; [exact I|].
  pose proof (hasId_throws itemId i) as Hi.
  destruct (hasId itemId i) as [[|]|err]; auto.
Qed.

Lemma findIndex_throws itemId l : throwsTypeError (findIndex (hasId itemId) l).
Proof.
  induction l as [|i l IH]; simpl; [exact I|].
  pose proof (hasId_throws itemId i) as Hi.
  destruct (hasId itemId i) as [[|]|err]; auto.
  destruct (findIndex (hasId itemId) l); auto.
Qed.

Lemma filterNot_throws itemId l : throwsTypeError (filterNot (hasId itemId) l).
Proof.
  induction l as [|i l IH]; simpl; [exact I|].
  pose proof (hasId_throws itemId i) as Hi.
  destruct (hasId itemId i) as [b|err]; auto.
  destruct (filterNot (hasId itemId) l); auto.
Qed.

(** Case analysis along a handler: the next operation that may throw, or
    the next test. *)
Ltac on_result H r :=
  let err := fresh "err" in
  let E := fresh "E" in
  pose proof H as E;
  destruct r as [?|err] eqn:?; simpl in E |- *;
  [clear E | destruct err; try (exfalso; exact E); clear E; simpl].

Ltac step :=
  match goal with
  | |- context [match get ?o ?k with Ok _ => _ | Throw _ => _ end] =>
      on_result (get_throws o k) (get o k)
  | |- context [match callToLowerCase ?r ?v with Ok _ => _ | Throw _ => _ end] =>
      on_result (callToLowerCase_throws r v) (callToLowerCase r v)
  | |- context [match asArray ?m ?v with Ok _ => _ | Throw _ => _ end] =>
      on_result (asArray_throws m v) (asArray m v)
  | |- context [match find (hasId ?i) ?l with Ok _ => _ | Throw _ => _ end] =>
      on_result (find_throws i l) (find (hasId i) l)
  | |- context [match findIndex (hasId ?i) ?l with Ok _ => _ | Throw _ => _ end] =>
      on_result (findIndex_throws i l) (findIndex (hasId i) l)
  | |- context [match filterNot (hasId ?i) ?l with Ok _ => _ | Throw _ => _ end] =>
      on_result (filterNot_throws i l) (filterNot (hasId i) l)
  | |- context [parseFloat ?v] => unfold parseFloat, isFinite
  | |- context [isFinite ?v] => unfold isFinite
  | |- context [readItems ?e ?d] => rewrite (readItems_eq e d); simpl
  | |- context [writeItems ?e ?v ?d] => rewrite (writeItems_eq e v d); simpl
  | |- context [if isDefined ?v then _ else _] => destruct (isDefined v) eqn:?; simpl
  | |- context [if convertible ?v then _ else _] => destruct (convertible v) eqn:?; simpl
  | |- context [if isNaN ?x then _ else _] => destruct (isNaN x) eqn:?; simpl
  | |- context [if negb (includes ?l ?v) then _ else _] =>
      destruct (includes l v) eqn:?; simpl
  | |- context [negb (is_finite ?x)] => destruct (is_finite x) eqn:?; simpl
  | |- context [if is_finite ?x then _ else _] => destruct (is_finite x) eqn:?; simpl
  | |- context [if writable ?e then _ else _] => destruct (writable e) eqn:?; simpl
  | |- context [if truthy ?v then _ else _] => destruct (truthy v) eqn:?; simpl
  | |- context [negb (truthy ?v)] => destruct (truthy v) eqn:?; simpl
  | |- context [if (?n <? ?m)%nat then _ else _] => destruct (n <? m)%nat eqn:?; simpl
  | |- context [match ?o with Some _ => _ | None => _ end] =>
      is_var o; destruct o eqn:?; simpl
  end.

(** *** Absent or unreadable as JSON: the collection is empty *)

Lemma readItems_absent e :
  readItems e None =
  ((if writable e then Some (JSON (Arr [])) else None), Arr []).
Proof. apply readItems_eq. Qed.

Lemma readItems_not_JSON e t :
  t = Blank \/ t = Garbage -> readItems e (Some t) = (Some t, Arr []).
Proof. intros [-> | ->]; reflexivity. Qed.

(** C8. [readItems] never throws (it is a total function of the file), an
    absent file is created empty and a text that is not JSON loads as the
    empty collection.  But a document that is JSON and not an array is
    returned as it is: at the document [{}] the result is the object, not
    an empty collection, and a get-one request on it fails with 500. *)
Theorem readItems_returns_non_array e :
  readItems e (Some (JSON (Obj []))) = (Some (JSON (Obj [])), Obj [])
  /\ loaded (Some (JSON (Obj []))) <> Arr []
  /\ status (snd (handleGetOneItem e "a" (Some (JSON (Obj []))))) = 500.
Proof. split_and!; [reflexivity | discriminate | reflexivity]. Qed.

(** ** Create *)

Lemma get_prop o k v : get o k = Ok v -> prop o k = v.
Proof. unfold prop. by intros ->. Qed.

Lemma callToLowerCase_Ok receiver v s :
  callToLowerCase receiver v = Ok s ->
  isString v = true /\ s = toLowerCase (interpolate v).
Proof. destruct v; simpl; intros; by simplify_eq. Qed.

(** The outcomes of create: accepted, not accepted, rejected with 400. *)
Lemma create_outcome e payload d :
  let R := handleCreateItem e (JSON payload) d in
  (status (snd R) = 201 ->
   passesCreate payload = true
   /\ writable e = true
   /\ exists l, loaded d = Arr l
      /\ R = (Some (JSON (json (Arr (l ++ [created e payload])))),
              sendJsonResponse 201 true "Item created successfully."
                (created e payload)))
  /\ (status (snd R) <> 201 -> loaded (fst R) = loaded d)
  /\ (status (snd R) = 400 -> fst R = d).
Proof.
  unfold handleCreateItem, priceIsInvalid. run_io.
  repeat step; split_and!; try done;
    try (intros _; apply loaded_afterLoad).
  intros _.
  repeat match goal with
         | H : get _ _ = Ok _ |- _ => apply get_prop in H
         | H : callToLowerCase _ _ = Ok _ |- _ =>
             apply callToLowerCase_Ok in H; destruct H
         end.
  unfold passesCreate, created, isNaN in *. simplify_eq.
  destruct (loaded d) eqn:Hl; simplify_eq.
  repeat match goal with H : _ = _ |- _ => rewrite H end.
  simpl in *; simplify_eq. split_and!; try done. by eexists.
Qed.

Lemma create_201 e payload d :
  status (snd (handleCreateItem e (JSON payload) d)) = 201 ->
  passesCreate payload = true
  /\ writable e = true
  /\ exists l, loaded d = Arr l
     /\ handleCreateItem e (JSON payload) d =
        (Some (JSON (json (Arr (l ++ [created e payload])))),
         sendJsonResponse 201 true "Item created successfully."
           (created e payload)).
Proof. apply create_outcome. Qed.

Lemma create_not_201 e body d :
  status (snd (handleCreateItem e body d)) <> 201 ->
  loaded (fst (handleCreateItem e body d)) = loaded d.
Proof.
  destruct body as [| |payload]; [done..|]. apply create_outcome.
Qed.

Lemma create_400_untouched e body d :
  status (snd (handleCreateItem e body d)) = 400 ->
  fst (handleCreateItem e body d) = d.
Proof.
  destruct body as [| |payload]; [done..|]. apply create_outcome.
Qed.

Lemma create_passes e payload d l :
  passesCreate payload = true -> writable e = true -> loaded d = Arr l ->
  handleCreateItem e (JSON payload) d =
  (Some (JSON (json (Arr (l ++ [created e payload])))),
   sendJsonResponse 201 true "Item created successfully." (created e payload)).
Proof.
  unfold passesCreate, prop, created. intros Hp Hw Hl.
  unfold handleCreateItem, priceIsInvalid, prop. run_io.
  destruct (get payload "name") as [name|]; simpl in *; [|done].
  destruct (get payload "price") as [price|]; simpl in *;
    [|by rewrite andb_false_r in Hp].
  destruct (get payload "size") as [[]|]; simpl in *;
    try by rewrite !andb_false_r in Hp.
  repeat (apply andb_prop in Hp; destruct Hp as [Hp ?]).
  apply negb_true_iff in H0.
  unfold parseFloat, isFinite, isNaN.
  repeat match goal with H : _ = _ |- _ => rewrite H; simpl end.
  rewrite readItems_eq, Hl. simpl. rewrite writeItems_eq, Hw. reflexivity.
Qed.

(** *** The validation rule on create *)

Lemma parseableFinite_eq price :
  parseableFinite price =
  convertible price && negb (is_nan (parseFloatOf price))
  && is_finite (ToNumberOf price).
Proof.
  unfold parseableFinite, parseFloat, isFinite.
  destruct (convertible price); reflexivity.
Qed.

Lemma is_nan_reread x : is_nan (reread x) = is_nan x.
Proof. by destruct x. Qed.

Lemma is_finite_reread x : is_finite (reread x) = is_finite x.
Proof. by destruct x. Qed.

Lemma parsed_truthy price :
  is_nan (parseFloatOf price) = false -> isZeroNumber price = false ->
  truthy price = true.
Proof.
  destruct price as [| | |x|s| |]; try done.
  - unfold parseFloatOf. rewrite is_nan_reread. simpl. by intros -> ->.
  - by destruct s.
Qed.

Lemma inEnumeration_truthy size : inEnumeration size = true -> truthy size = true.
Proof. destruct size as [| | | |[|]| |]; done. Qed.

Lemma passesCreate_signless payload :
  isZeroNumber (prop payload "price") = false ->
  passesCreate payload = signless_validateForCreate payload.
Proof.
  intros Hz. unfold passesCreate, signless_validateForCreate, inEnumeration.
  rewrite parseableFinite_eq.
  destruct (truthy (prop payload "name")); [simpl|done].
  destruct (truthy (prop payload "price")) eqn:Hp,
    (truthy (prop payload "size")) eqn:Hs; simpl.
  - by destruct (isString _), (includes _ _), (convertible _), (is_nan _),
      (is_finite _).
  - destruct (isString _ && includes _ _) eqn:Hi; [|by rewrite andb_false_r].
    apply inEnumeration_truthy in Hi. congruence.
  - destruct (is_nan (parseFloatOf (prop payload "price"))) eqn:Hn;
      [by rewrite andb_false_r|].
    apply parsed_truthy in Hn; congruence.
  - destruct (is_nan (parseFloatOf (prop payload "price"))) eqn:Hn;
      [by rewrite andb_false_r|].
    apply parsed_truthy in Hn; congruence.
Qed.

(** C2, the claim as stated fails: with price 0 the payload satisfies the
    rule of the specification and is answered 400, and with price -1 it
    does not satisfy it and is answered 201. *)
Lemma create_rule_counterexample :
  (spec_validateForCreate (payloadOf (Str "X") (Num (of_Z 0)) (Str "m")) = true
   /\ status (snd (handleCreateItem anEnv
        (JSON (payloadOf (Str "X") (Num (of_Z 0)) (Str "m"))) None)) = 400)
  /\ (spec_validateForCreate (payloadOf (Str "X") (Num (of_Z (-1))) (Str "m")) = false
      /\ status (snd (handleCreateItem anEnv
           (JSON (payloadOf (Str "X") (Num (of_Z (-1))) (Str "m"))) None)) = 201).
Proof. vm_compute. done. Qed.

(** C2, amended: for a payload whose price is not the number 0, on a file
    that holds an array and can be written, create answers 201 exactly
    when name is present and non-empty, price is parseable as a finite
    number of either sign, and size is case-insensitively in the
    enumeration; the item answered has the price as a number, the size in
    lower case and the fresh id, and is appended and persisted. *)
Theorem create_accepts_iff e payload d l :
  writable e = true -> loaded d = Arr l ->
  isZeroNumber (prop payload "price") = false ->
  (status (snd (handleCreateItem e (JSON payload) d)) = 201
   <-> signless_validateForCreate payload = true)
  /\ (signless_validateForCreate payload = true ->
      handleCreateItem e (JSON payload) d =
      (Some (JSON (json (Arr (l ++ [created e payload])))),
       sendJsonResponse 201 true "Item created successfully."
         (created e payload))).
Proof.
  intros Hw Hl Hz. rewrite <- (passesCreate_signless payload Hz).
  split; [split|]; intros H.
  - by apply create_201 in H as [? _].
  - by rewrite (create_passes e payload d l).
  - by apply create_passes.
Qed.

Lemma create_accepts_iff_witness :
  (writable anEnv = true /\ loaded None = Arr []
   /\ isZeroNumber (prop (payloadOf (Str "X") (Str "12.5") (Str "M")) "price") = false)
  /\ (status (snd (handleCreateItem anEnv
         (JSON (payloadOf (Str "X") (Str "12.5") (Str "M"))) None)) = 201
       <-> signless_validateForCreate
             (payloadOf (Str "X") (Str "12.5") (Str "M")) = true).
Proof.
  split; [by split_and!|].
  apply (create_accepts_iff anEnv
           (payloadOf (Str "X") (Str "12.5") (Str "M")) None []);
    reflexivity.
Defined.

(** ** What is written and read back *)

Lemma json_Arr l : json (Arr l) = Arr (map jsonElement l).
Proof. reflexivity. Qed.

Lemma json_Obj props : json (Obj props) = Obj (jsonProperties json props).
Proof. reflexivity. Qed.

Lemma jsonProperties_cons k v props :
  jsonProperties json ((k, v) :: props) =
  if isDefined v then (k, json v) :: jsonProperties json props
  else jsonProperties json props.
Proof. reflexivity. Qed.

Lemma json_defined v : isDefined v = true -> isDefined (json v) = true.
Proof.
  destruct v as [| | |x| | |]; try done.
  intros _. unfold json. by destruct (is_finite x).
Qed.

Lemma storedItem_element i : storedItem i -> jsonElement i = i.
Proof. intros [Ho Hj]. by destruct i. Qed.

Lemma map_jsonElement l : collection l -> map jsonElement l = l.
Proof.
  induction 1 as [|i l Hi _ IH]; simpl; [done|].
  by rewrite IH, storedItem_element.
Qed.

Lemma json_collection l : collection l -> json (Arr l) = Arr l.
Proof. intros Hl. by rewrite json_Arr, map_jsonElement. Qed.

Lemma json_collection_app l i :
  collection l -> json (Arr (l ++ [i])) = Arr (l ++ [jsonElement i]).
Proof. intros Hl. by rewrite json_Arr, map_app, map_jsonElement. Qed.

Lemma json_collection_insert l index i :
  collection l ->
  json (Arr (<[index := i]> l)) = Arr (<[index := jsonElement i]> l).
Proof.
  intros Hl. rewrite json_Arr. f_equal. revert index.
  induction Hl as [|i' l Hi Hl IH]; intros [|index]; simpl; try done.
  - by rewrite map_jsonElement.
  - by rewrite IH, storedItem_element.
Qed.

(** *** Searching a collection *)

Lemma hasId_object itemId i : isObject i = true -> hasId itemId i = Ok (idIs itemId i).
Proof. by destruct i. Qed.

Lemma idIs_object itemId i : idIs itemId i = true -> isObject i = true.
Proof. by destruct i. Qed.

Lemma find_collection itemId l :
  collection l ->
  find (hasId itemId) l = Ok (default Undefined (List.find (idIs itemId) l)).
Proof.
  induction 1 as [|i l [Hi _] _ IH]; simpl; [done|].
  rewrite (hasId_object _ _ Hi). by destruct (idIs itemId i).
Qed.

Lemma filterNot_collection itemId l :
  collection l ->
  filterNot (hasId itemId) l =
  Ok (List.filter (fun i => negb (idIs itemId i)) l).
Proof.
  induction 1 as [|i l [Hi _] _ IH]; simpl; [done|].
  rewrite (hasId_object _ _ Hi), IH. by destruct (idIs itemId i).
Qed.

Lemma collection_filter f l : collection l -> collection (List.filter f l).
Proof.
  induction 1 as [|i l Hi _ IH]; simpl; [constructor|].
  destruct (f i); [by constructor|done].
Qed.

Lemma filter_length_lt itemId l :
  (List.length (List.filter (fun i => negb (idIs itemId i)) l) <? List.length l)%nat
  = existsb (idIs itemId) l.
Proof.
  assert (Hle : forall l',
    (List.length (List.filter (fun i => negb (idIs itemId i)) l')
     <= List.length l')%nat).
  { intros l'. induction l' as [|i l' IH]; simpl; [lia|].
    destruct (idIs itemId i); simpl; lia. }
  induction l as [|i l IH]; simpl; [done|].
  destruct (idIs itemId i); simpl.
  - apply Nat.ltb_lt. specialize (Hle l). lia.
  - rewrite <- IH. apply eq_iff_eq_true. rewrite !Nat.ltb_lt. lia.
Qed.

Lemma find_filtered itemId l :
  List.find (idIs itemId) (List.filter (fun i => negb (idIs itemId i)) l) = None.
Proof.
  induction l as [|i l IH]; simpl; [done|].
  destruct (idIs itemId i) eqn:Hi; simpl; [done|]. by rewrite Hi.
Qed.

(** ** Get one, delete *)

Lemma getOne_collection e itemId d l :
  loaded d = Arr l -> collection l ->
  handleGetOneItem e itemId d =
  (afterLoad e d,
   match List.find (idIs itemId) l with
   | Some item => sendJsonResponse 200 true "Successfully retrieved item." item
   | None => notFound itemId
   end).
Proof.
  intros Hd Hl. unfold handleGetOneItem. run_io.
  rewrite readItems_eq, Hd. simpl. rewrite (find_collection _ _ Hl).
  destruct (List.find (idIs itemId) l) as [item|] eqn:Hf; simpl; [|done].
  apply find_some in Hf as [_ Hi]. apply idIs_object in Hi.
  by destruct item.
Qed.

Lemma delete_collection e itemId d l :
  loaded d = Arr l -> collection l ->
  handleDeleteItem e itemId d =
  if existsb (idIs itemId) l then
    if writable e then
      (Some (JSON (Arr (without itemId l))),
       sendJsonResponse 200 true "Item deleted successfully." Null)
    else
      (afterLoad e d,
       sendJsonResponse 500 false
         "Internal server error while deleting item: Failed to persist items."
         Null)
  else (afterLoad e d, notFound itemId).
Proof.
  intros Hd Hl. unfold handleDeleteItem. run_io.
  rewrite readItems_eq, Hd. simpl. rewrite (filterNot_collection _ _ Hl).
  rewrite filter_length_lt. destruct (existsb (idIs itemId) l); [|done].
  rewrite writeItems_eq.
  rewrite (json_collection _ (collection_filter _ _ Hl)).
  by destruct (writable e).
Qed.

(** C7. On a collection: deleting an id that is there answers 200 with
    [null] data and persists the collection without any item of that id,
    so that get-one on the id then answers 404; deleting an id that is not
    there answers 404 and the collection stays what it was. *)
Theorem delete_is_final e e' itemId d l :
  loaded d = Arr l -> collection l ->
  (existsb (idIs itemId) l = true -> writable e = true ->
   handleDeleteItem e itemId d =
     (Some (JSON (Arr (without itemId l))),
      sendJsonResponse 200 true "Item deleted successfully." Null)
   /\ data (snd (handleDeleteItem e itemId d)) = Null
   /\ Forall (fun i => idIs itemId i = false) (without itemId l)
   /\ status (snd (handleGetOneItem e' itemId
                     (fst (handleDeleteItem e itemId d)))) = 404)
  /\ (existsb (idIs itemId) l = false ->
      status (snd (handleDeleteItem e itemId d)) = 404
      /\ loaded (fst (handleDeleteItem e itemId d)) = Arr l
      /\ (forall t, d = Some t -> fst (handleDeleteItem e itemId d) = d)).
Proof.
  intros Hd Hl. rewrite (delete_collection e itemId d l Hd Hl).
  split.
  - intros -> ->. split_and!; try done.
    + apply Forall_forall. intros i Hi%list_elem_of_In.
      apply filter_In in Hi as [_ Hi]. by apply negb_true_iff.
    + simpl. erewrite getOne_collection;
        [|reflexivity|by apply collection_filter].
      unfold without. by rewrite find_filtered.
  - intros ->. split_and!; try done.
    + simpl. by rewrite loaded_afterLoad.
    + by intros t ->.
Qed.

Lemma delete_is_final_witness :
  let l := [anItem "a" "A" 1 "s"; anItem "b" "B" 2 "m"] in
  (loaded (Some (JSON (Arr l))) = Arr l /\ collection l
   /\ existsb (idIs "a") l = true /\ writable anEnv = true
   /\ existsb (idIs "c") l = false)
  /\ status (snd (handleGetOneItem anEnv "a"
                    (fst (handleDeleteItem anEnv "a" (Some (JSON (Arr l))))))) = 404
  /\ status (snd (handleDeleteItem anEnv "c" (Some (JSON (Arr l))))) = 404.
Proof.
  intros l.
  assert (Hl : collection l) by (repeat constructor).
  split; [by split_and!|]. split.
  - by apply (delete_is_final anEnv anEnv "a" (Some (JSON (Arr l))) l).
  - by apply (delete_is_final anEnv anEnv "c" (Some (JSON (Arr l))) l).
Defined.

(** ** A price that passes the test is a finite number *)

Lemma nonDecimal_prefix t x rest :
  nonDecimal t = Some (x, rest) ->
  exists c s', t = String "0" (String c s') /\ isDigit c = false
               /\ c <> "."%char /\ c <> "e"%char /\ c <> "E"%char.
Proof.
  destruct t as [|c0 [|c s']]; try done.
  - simpl. by destruct c0 as [[] [] [] [] [] [] [] []].
  - intros H. assert (c0 = "0"%char) as ->.
    { destruct c0 as [[] [] [] [] [] [] [] []]; simpl in H; try done. }
    exists c, s'. split; [done|].
    simpl in H.
    destruct (Ascii.eqb_spec c "x"); [by subst|].
    destruct (Ascii.eqb_spec c "X"); [by subst|].
    destruct (Ascii.eqb_spec c "o"); [by subst|].
    destruct (Ascii.eqb_spec c "O"); [by subst|].
    destruct (Ascii.eqb_spec c "b"); [by subst|].
    destruct (Ascii.eqb_spec c "B"); [by subst|].
    done.
Qed.

Lemma decimal_after_zero c s' :
  isDigit c = false -> c <> "."%char -> c <> "e"%char -> c <> "E"%char ->
  decimal (String "0" (String c s')) = Some (S754_zero false, String c s').
Proof.
  intros Hd Hdot He HE.
  unfold decimal, unsignedDecimal. simpl. rewrite Hd.
  assert (Hr : match String c s' with
               | String "." r1' => true
               | _ => false
               end = false).
  { destruct c as [[] [] [] [] [] [] [] []]; try done. }
  destruct c as [[] [] [] [] [] [] [] []]; try done.
Qed.

Lemma parseFloatString_finite s :
  is_nan (parseFloatString s) = false ->
  is_finite (StringToNumber s) = true ->
  is_finite (parseFloatString s) = true.
Proof.
  unfold parseFloatString, StringToNumber.
  destruct (trimStart s) as [|c t] eqn:Ht; [done|]. simpl isEmpty. cbv iota.
  destruct (nonDecimal (String c t)) as [[x rest]|] eqn:Hn.
  - apply nonDecimal_prefix in Hn as (c' & s' & Heq & ? & ? & ? & ?).
    rewrite Heq, decimal_after_zero by done. done.
  - destruct (decimal (String c t)) as [[x rest]|]; [|done].
    by destruct (allWhiteSpace rest).
Qed.

Lemma parseFloatOf_Num x : parseFloatOf (Num x) = reread x.
Proof. reflexivity. Qed.

Lemma ToNumberOf_Num x : ToNumberOf (Num x) = x.
Proof. reflexivity. Qed.

Lemma parseFloatOf_finite :
  forall price,
    is_nan (parseFloatOf price) = false ->
    is_finite (ToNumberOf price) = true ->
    is_finite (parseFloatOf price) = true.
Proof.
  fix IH 1. intros [| | |x|s|l|props]; try (clear IH; done).
  - clear IH. by rewrite parseFloatOf_Num, ToNumberOf_Num, is_finite_reread.
  - clear IH. apply parseFloatString_finite.
  - destruct l as [|first [|second l]]; try (clear IH; done).
    pose proof (IH first) as IHfirst. clear IH.
    destruct first as [| | |x|s|l|props]; done.
Qed.

(** ** Writing twice changes nothing more *)

Section value_induction.
Variable P : value -> Prop.
Hypothesis HUndefined : P Undefined.
Hypothesis HNull : P Null.
Hypothesis HBool : forall b, P (Bool b).
Hypothesis HNum : forall x, P (Num x).
Hypothesis HStr : forall s, P (Str s).
Hypothesis HArr : forall l, Forall P l -> P (Arr l).
Hypothesis HObj :
  forall props, Forall (fun p => P (snd p)) props -> P (Obj props).

(** Induction on values, through the lists they hold. *)
Lemma value_induction : forall v, P v.
Proof.
  fix IH 1. intros [| |b|x|s|l|props].
  - exact HUndefined.
  - exact HNull.
  - exact (HBool b).
  - exact (HNum x).
  - exact (HStr s).
  - apply HArr. induction l as [|v l IHl]; constructor.
    + exact (IH v).
    + exact IHl.
  - apply HObj. induction props as [|[k v] props IHprops]; constructor.
    + exact (IH v).
    + exact IHprops.
Qed.
End value_induction.

Lemma reread_reread x : reread (reread x) = reread x.
Proof. by destruct x. Qed.

Lemma json_Num x :
  json (Num x) = if is_finite x then Num (reread x) else Null.
Proof. reflexivity. Qed.

Lemma json_idempotent v : json (json v) = json v.
Proof.
  induction v as [| | |x| |l IH|props IH] using value_induction; try done.
  - rewrite json_Num. destruct (is_finite x) eqn:Hx; [|done].
    by rewrite json_Num, is_finite_reread, Hx, reread_reread.
  - rewrite !json_Arr. f_equal.
    induction IH as [|v l Hv _ IHl]; simpl; [done|].
    rewrite IHl. f_equal. unfold jsonElement at 2 3.
    destruct (isDefined v) eqn:Hd; [|done].
    unfold jsonElement. by rewrite (json_defined _ Hd).
  - rewrite !json_Obj. f_equal.
    induction IH as [|[k v] props Hv _ IHprops]; [done|].
    rewrite jsonProperties_cons. simpl in Hv.
    destruct (isDefined v) eqn:Hd; [|done].
    by rewrite jsonProperties_cons, (json_defined _ Hd), Hv, IHprops.
Qed.

Lemma truthy_defined v : truthy v = true -> isDefined v = true.
Proof. by destruct v. Qed.

Lemma passesCreate_inv payload :
  passesCreate payload = true ->
  truthy (prop payload "name") = true
  /\ (exists s, prop payload "size" = Str s
                /\ In (toLowerCase s) validSizes)
  /\ is_finite (parseFloatOf (prop payload "price")) = true.
Proof.
  unfold passesCreate. rewrite !andb_true_iff, negb_true_iff.
  intros (((((((Hn & _) & _) & Hs) & Hi) & _) & Hnan) & Hfin).
  split; [done|]. split.
  - destruct (prop payload "size") as [| | | |s| |]; try done.
    exists s. split; [done|].
    unfold includes in Hi. apply existsb_exists in Hi as (x & Hx & Heq).
    simpl in Heq. apply String.eqb_eq in Heq. by subst.
  - by apply parseFloatOf_finite.
Qed.

(** The new item as it is written, and answered. *)
Lemma json_created e payload :
  passesCreate payload = true ->
  json (created e payload) =
  Obj [("id", Str (uuid e));
       ("name", json (prop payload "name"));
       ("price", Num (reread (parseFloatOf (prop payload "price"))));
       ("size", Str (toLowerCase (interpolate (prop payload "size"))))].
Proof.
  intros (Hn & _ & Hp)%passesCreate_inv. unfold created.
  rewrite json_Obj, !jsonProperties_cons, json_Num, Hp.
  by rewrite (truthy_defined _ Hn).
Qed.

Lemma storedItem_json_object props : storedItem (json (Obj props)).
Proof.
  split; [done|apply json_idempotent].
Qed.

(** ** Create, then get *)

Lemma find_app_fresh itemId l item :
  existsb (idIs itemId) l = false -> idIs itemId item = true ->
  List.find (idIs itemId) (l ++ [item]) = Some item.
Proof.
  intros Hl Hi. induction l as [|i l IH]; simpl in *; [by rewrite Hi|].
  apply orb_false_iff in Hl as [-> Hl]. by apply IH.
Qed.

Lemma reread_nonzero x : is_zero x = false -> reread x = x.
Proof. by destruct x. Qed.

(** The round trip for a payload that create accepts.  When create
    answers 201 on a collection that has no item with the fresh identifier,
    get-one on that identifier answers 200 with the item create answered:
    its id is the fresh, non-empty identifier, its name is the submitted
    name as JSON carries it (a text name unchanged), its price the number
    [parseFloat] reads from the submitted price (a submitted number
    itself), and its size the submitted size in lower case. *)
Theorem create_then_get e e' body d l :
  loaded d = Arr l -> collection l ->
  existsb (idIs (uuid e)) l = false -> uuid e <> "" ->
  status (snd (handleCreateItem e body d)) = 201 ->
  exists payload size item,
    body = JSON payload
    /\ prop payload "size" = Str size
    /\ item = Obj [("id", Str (uuid e));
                   ("name", json (prop payload "name"));
                   ("price", Num (reread (parseFloatOf (prop payload "price"))));
                   ("size", Str (toLowerCase size))]
    /\ data (snd (handleCreateItem e body d)) = item
    /\ handleGetOneItem e' (uuid e) (fst (handleCreateItem e body d)) =
       (fst (handleCreateItem e body d),
        sendJsonResponse 200 true "Successfully retrieved item." item)
    /\ data (sendJsonResponse 200 true "Successfully retrieved item." item) = item
    /\ prop item "id" <> Str ""
    /\ (forall name, prop payload "name" = Str name ->
                     prop item "name" = Str name)
    /\ (forall x, prop payload "price" = Num x -> prop item "price" = Num x)
    /\ In (toLowerCase size) validSizes.
Proof.
  intros Hd Hl Hfresh Hid H201.
  destruct body as [| |payload]; try done.
  apply create_201 in H201 as (Hp & Hw & l' & Hd' & ->).
  rewrite Hd in Hd'. injection Hd' as <-.
  pose proof (passesCreate_inv _ Hp) as (Hn & (size & Hs & Hin) & Hfin).
  pose proof (json_created e payload Hp) as Hj. rewrite Hs in Hj. simpl in Hj.
  assert (Hstored : storedItem (json (created e payload)))
    by apply storedItem_json_object.
  exists payload, size, (json (created e payload)).
  split_and!; try done.
  - simpl. rewrite json_collection_app by done.
    unfold jsonElement. simpl isDefined. cbv iota.
    erewrite getOne_collection; [|reflexivity|].
    + rewrite find_app_fresh; [done|done|].
      rewrite Hj. unfold idIs. simpl. apply String.eqb_refl.
    + apply Forall_app. split; [done|]. by constructor.
  - simpl. by rewrite json_idempotent.
  - rewrite Hj. by intros [=].
  - intros name Hname. rewrite Hj, Hname. done.
  - intros x Hx. rewrite Hj. simpl. rewrite Hx, parseFloatOf_Num, reread_reread.
    unfold prop. simpl. f_equal. apply reread_nonzero.
    unfold passesCreate in Hp. rewrite Hx in Hp. simpl in Hp.
    destruct (is_zero x); [|done].
    by rewrite andb_false_r in Hp.
Qed.

Lemma create_then_get_witness :
  let body := JSON (payloadOf (Str "Laptop") (Num (of_Z 1200)) (Str "M")) in
  let l := [anItem "a" "A" 1 "s"] in
  (loaded (Some (JSON (Arr l))) = Arr l /\ collection l
   /\ existsb (idIs (uuid anEnv)) l = false /\ uuid anEnv <> ""
   /\ status (snd (handleCreateItem anEnv body (Some (JSON (Arr l))))) = 201)
  /\ exists payload size item,
       body = JSON payload
       /\ prop payload "size" = Str size
       /\ item = Obj [("id", Str (uuid anEnv));
                      ("name", json (prop payload "name"));
                      ("price", Num (reread (parseFloatOf (prop payload "price"))));
                      ("size", Str (toLowerCase size))]
       /\ data (snd (handleCreateItem anEnv body (Some (JSON (Arr l))))) = item
       /\ handleGetOneItem anEnv (uuid anEnv)
            (fst (handleCreateItem anEnv body (Some (JSON (Arr l))))) =
          (fst (handleCreateItem anEnv body (Some (JSON (Arr l)))),
           sendJsonResponse 200 true "Successfully retrieved item." item)
       /\ data (sendJsonResponse 200 true "Successfully retrieved item." item) = item
       /\ prop item "id" <> Str ""
       /\ (forall name, prop payload "name" = Str name ->
                        prop item "name" = Str name)
       /\ (forall x, prop payload "price" = Num x -> prop item "price" = Num x)
       /\ In (toLowerCase size) validSizes.
Proof.
  intros body l.
  assert (Hl : collection l) by (repeat constructor).
  split; [by split_and!|].
  by apply (create_then_get anEnv anEnv body (Some (JSON (Arr l))) l).
Defined.

(** ** A price of 0 *)

Lemma create_price_zero_missing e d name size :
  handleCreateItem e (JSON (payloadOf name (Num (S754_zero false)) size)) d =
  (d, sendJsonResponse 400 false
        "Missing required fields: name, price, and size are mandatory."
        Null).
Proof.
  unfold handleCreateItem, payloadOf. run_io.
  by destruct (truthy name).
Qed.

(** C5, the code fails the claim: the payload with name "X", price 0 and
    size "m" is valid by the rule of the specification (a non-empty name,
    a finite price that is not negative, a size of the enumeration), and
    create answers it 400 as if a field were missing, for every
    environment and file: the presence test [!newItemData.price] takes the
    number 0 for an absent price.  No item is created and no id returned,
    so there is nothing to get. *)
Theorem create_rejects_price_zero e d :
  let payload := payloadOf (Str "X") (Num (S754_zero false)) (Str "m") in
  spec_validateForCreate payload = true
  /\ handleCreateItem e (JSON payload) d =
     (d, sendJsonResponse 400 false
           "Missing required fields: name, price, and size are mandatory."
           Null).
Proof.
  split; [by vm_compute|]. apply create_price_zero_missing.
Qed.

(** The update path tests [!== undefined] and accepts the same price. *)
Lemma update_accepts_price_zero :
  handleUpdateItem anEnv "a" (JSON (Obj [("price", Num (S754_zero false))]))
    (storeOf [anItem "a" "A" 1 "s"])
  = (storeOf [anItem "a" "A" 0 "s"],
     sendJsonResponse 200 true "Item updated successfully."
       (anItem "a" "A" 0 "s")).
Proof. by vm_compute. Qed.


(** ** Properties of objects under assignment and writing *)

Lemma lookup_assign k k' v props :
  lookup k' (assign k v props) =
  if String.eqb k k' then Some v else lookup k' props.
Proof.
  induction props as [|[k0 v0] props IH]; simpl.
  - done.
  - destruct (String.eqb_spec k0 k) as [->|Hne]; simpl.
    + by destruct (String.eqb k k').
    + rewrite IH. destruct (String.eqb_spec k0 k') as [->|Hne']; [|done].
      destruct (String.eqb_spec k k'); [congruence|done].
Qed.

(** Other properties are written as before. *)
Lemma lookup_written_other k k' v props :
  k <> k' ->
  lookup k' (jsonProperties json (assign k v props)) =
  lookup k' (jsonProperties json props).
Proof.
  intros Hne. induction props as [|[k0 v0] props IH]; simpl.
  - rewrite jsonProperties_cons. destruct (isDefined v); [|done].
    simpl. by destruct (String.eqb_spec k k').
  - destruct (String.eqb_spec k0 k) as [->|Hne0].
    + rewrite !jsonProperties_cons.
      destruct (isDefined v), (isDefined v0); simpl;
        by destruct (String.eqb_spec k k').
    + rewrite !jsonProperties_cons. destruct (isDefined v0); [|done].
      simpl. by rewrite IH.
Qed.

(** A defined value is written where it was assigned. *)
Lemma lookup_written_defined k v props :
  isDefined v = true ->
  lookup k (jsonProperties json (assign k v props)) = Some (json v).
Proof.
  intros Hv. induction props as [|[k0 v0] props IH]; simpl.
  - rewrite jsonProperties_cons, Hv. simpl. by rewrite String.eqb_refl.
  - destruct (String.eqb_spec k0 k) as [->|Hne].
    + rewrite jsonProperties_cons, Hv. simpl. by rewrite String.eqb_refl.
    + rewrite jsonProperties_cons. destruct (isDefined v0); [|done].
      simpl. destruct (String.eqb_spec k0 k); [done|]. apply IH.
Qed.

(** [undefined] assigned to a property the object does not have leaves no
    trace in what is written. *)
Lemma lookup_written_undefined k props :
  lookup k props = None ->
  lookup k (jsonProperties json (assign k Undefined props)) = None.
Proof.
  induction props as [|[k0 v0] props IH]; simpl; [done|].
  destruct (String.eqb_spec k0 k) as [->|Hne]; [done|]. intros H.
  rewrite jsonProperties_cons. destruct (isDefined v0); [|by apply IH].
  simpl. destruct (String.eqb_spec k0 k); [done|]. by apply IH.
Qed.

Lemma jsonProperties_length props :
  (List.length (jsonProperties json props) <= List.length props)%nat.
Proof.
  induction props as [|[k v] props IH]; simpl; [done|].
  rewrite jsonProperties_cons. destruct (isDefined v); simpl; lia.
Qed.

(** In a stored item, every property is defined and stored. *)
Lemma stored_properties props :
  jsonProperties json props = props ->
  Forall (fun p => isDefined (snd p) = true /\ json (snd p) = snd p) props.
Proof.
  induction props as [|[k v] props IH]; [constructor|].
  rewrite jsonProperties_cons. destruct (isDefined v) eqn:Hd.
  - intros [= Hv Hp]. constructor; [done|]. by apply IH.
  - intros H. pose proof (jsonProperties_length props) as Hlen.
    rewrite H in Hlen. simpl in Hlen. lia.
Qed.

Lemma stored_lookup k v props :
  jsonProperties json props = props -> lookup k props = Some v ->
  isDefined v = true /\ json v = v.
Proof.
  intros Hp%stored_properties. induction Hp as [|[k0 v0] props H0 _ IH]; [done|].
  simpl. destruct (String.eqb k0 k); [|done]. by intros [= <-].
Qed.

(** ** Update *)

Lemma findIndex_collection itemId l :
  collection l -> findIndex (hasId itemId) l = Ok (indexOf itemId l).
Proof.
  induction 1 as [|i l [Hi _] _ IH]; simpl; [done|].
  rewrite (hasId_object _ _ Hi), IH. by destruct (idIs itemId i).
Qed.

Lemma indexOf_Some itemId l index :
  indexOf itemId l = Some index ->
  exists item, l !! index = Some item /\ idIs itemId item = true.
Proof.
  revert index. induction l as [|i l IH]; intros index; simpl; [done|].
  destruct (idIs itemId i) eqn:Hi.
  - intros [= <-]. by exists i.
  - destruct (indexOf itemId l) as [index'|]; [|done].
    intros [= <-]. by apply IH.
Qed.

Lemma findIndex_Some itemId l index :
  findIndex (hasId itemId) l = Ok (Some index) ->
  exists item, l !! index = Some item /\ idIs itemId item = true.
Proof.
  revert index. induction l as [|i l IH]; intros index; simpl; [done|].
  destruct (hasId itemId i) as [[|]|] eqn:Hi; try done.
  - intros [= <-]. exists i. split; [done|].
    destruct i; try done. simpl in Hi. by injection Hi.
  - destruct (findIndex (hasId itemId) l) as [[index'|]|]; try done.
    intros [= <-]. by apply IH.
Qed.

Lemma get_readable payload k :
  readable payload = true -> get payload k = Ok (prop payload k).
Proof. by destruct payload. Qed.

Lemma get_object item k :
  isObject item = true -> get item k = Ok (prop item k).
Proof. by destruct item. Qed.

Lemma get_Ok_readable payload k v :
  get payload k = Ok v -> readable payload = true.
Proof. by destruct payload. Qed.

Lemma set_object item k v : isObject item = true -> isObject (set item k v) = true.
Proof. by destruct item. Qed.

Lemma prop_size_set item v : isObject item = true -> prop (set item "size" v) "size" = v.
Proof.
  destruct item as [| | | | | |props]; try done. intros _.
  unfold prop. simpl. by rewrite lookup_assign.
Qed.

(** The outcomes of update: accepted, not accepted, rejected with 400. *)
Lemma update_outcome e itemId payload d :
  let R := handleUpdateItem e itemId (JSON payload) d in
  (status (snd R) = 200 ->
   exists l index,
     loaded d = Arr l
     /\ findIndex (hasId itemId) l = Ok (Some index)
     /\ writable e = true /\ readable payload = true
     /\ passesUpdate payload = true
     /\ R = (Some (JSON (json (Arr (<[index :=
                 updated (default Undefined (l !! index)) payload]> l)))),
             sendJsonResponse 200 true "Item updated successfully."
               (updated (default Undefined (l !! index)) payload)))
  /\ (status (snd R) <> 200 -> fst R = afterLoad e d)
  /\ (status (snd R) = 400 -> fst R = d).
Proof.
  unfold handleUpdateItem, priceIsInvalid. run_io.
  repeat step; split_and!; try done;
    try (intros _; erewrite found_afterLoad by eassumption; done).
  all: intros _.
  all: repeat match goal with
         | H : (if ?b then _ else _) = Ok _ |- _ => simpl in H
         | H : Ok _ = Ok _ |- _ => injection H as H
         | H : callToLowerCase _ _ = Ok _ |- _ =>
             apply callToLowerCase_Ok in H; destruct H
         end.
  all: destruct (loaded d) as [| | | | |l|] eqn:Hl; simpl in *; simplify_eq.
  all: match goal with
       | H : findIndex _ ?l = Ok (Some ?index) |- _ =>
           pose proof (findIndex_Some _ _ _ H) as (item & Hitem & Hid);
           apply idIs_object in Hid; exists l, index
       end.
  all: rewrite Hitem in *; simpl in *.
  all: repeat match goal with
         | H : get _ _ = Ok _ |- _ =>
             pose proof (get_Ok_readable _ _ _ H); apply get_prop in H
         end.
  all: subst.
  all: unfold passesUpdate, updated, isNaN in *.
  all: repeat match goal with
         | H : context [prop (set _ "size" _) "size"] |- _ => 
             rewrite prop_size_set in H by (repeat apply set_object; done)
         end.
  all: repeat match goal with
         | H : ?x = true |- _ => rewrite H
         | H : ?x = false |- _ => rewrite H
         end; simpl.
  all: by split_and!.
Qed.

Lemma update_400_untouched e itemId body d :
  status (snd (handleUpdateItem e itemId body d)) = 400 ->
  fst (handleUpdateItem e itemId body d) = d.
Proof.
  destruct body as [| |payload]; [done..|]. apply update_outcome.
Qed.

Lemma found_present e d l itemId index :
  loaded d = Arr l -> findIndex (hasId itemId) l = Ok (Some index) ->
  afterLoad e d = d.
Proof.
  intros Hl Hf. eapply found_afterLoad; [|exact Hf]. by rewrite Hl.
Qed.

Lemma update_bad_size e itemId payload d l index size :
  loaded d = Arr l -> findIndex (hasId itemId) l = Ok (Some index) ->
  readable payload = true ->
  prop payload "size" = Str size ->
  includes validSizes (Str (toLowerCase size)) = false ->
  convertible (prop payload "price") = true ->
  handleUpdateItem e itemId (JSON payload) d = (d, invalidSize (Str size)).
Proof.
  intros Hl Hf Hr Hs Hbad Hc.
  destruct (findIndex_Some _ _ _ Hf) as (item & Hitem & Hobj%idIs_object).
  unfold handleUpdateItem, priceIsInvalid, parseFloat. run_io.
  rewrite readItems_eq, Hl. simpl. rewrite Hf. simpl.
  rewrite (found_present _ _ _ _ _ Hl Hf).
  rewrite !(get_readable _ _ Hr). simpl.
  rewrite Hitem, Hs, Hc. simpl.
  destruct (isDefined (prop payload "name")); simpl;
    rewrite ?get_object by (repeat apply set_object; exact Hobj); simpl;
    (destruct (isDefined (prop payload "price")); simpl;
     rewrite ?get_object by (repeat apply set_object; exact Hobj); simpl;
     rewrite prop_size_set by (repeat apply set_object; exact Hobj);
     by rewrite Hbad).
Qed.

Lemma update_passes e itemId payload d l index :
  loaded d = Arr l -> findIndex (hasId itemId) l = Ok (Some index) ->
  writable e = true -> readable payload = true ->
  passesUpdate payload = true ->
  handleUpdateItem e itemId (JSON payload) d =
  (Some (JSON (json (Arr (<[index :=
           updated (default Undefined (l !! index)) payload]> l)))),
   sendJsonResponse 200 true "Item updated successfully."
     (updated (default Undefined (l !! index)) payload)).
Proof.
  intros Hl Hf Hw Hr Hp.
  destruct (findIndex_Some _ _ _ Hf) as (item & Hitem & Hobj%idIs_object).
  unfold passesUpdate in Hp. apply andb_prop in Hp as [Hsize Hprice].
  unfold handleUpdateItem, priceIsInvalid, parseFloat, isFinite, updated, isNaN.
  run_io.
  rewrite readItems_eq, Hl. simpl. rewrite Hf. simpl.
  rewrite (found_present _ _ _ _ _ Hl Hf).
  rewrite !(get_readable _ _ Hr). simpl.
  rewrite Hitem. simpl.
  destruct (isDefined (prop payload "name")); simpl;
    rewrite ?get_object by (repeat apply set_object; exact Hobj); simpl.
  all: destruct (isDefined (prop payload "price")); simpl in *.
  all: try (apply andb_prop in Hprice as [[Hc Hnan]%andb_prop Hfin];
            apply negb_true_iff in Hnan; rewrite Hc; simpl).
  all: rewrite ?get_object by (repeat apply set_object; exact Hobj); simpl.
  all: destruct (isDefined (prop payload "size")); simpl in *.
  all: try (apply andb_prop in Hsize as [Hstr Hin];
            destruct (prop payload "size") as [| | | |size| |] eqn:Hs;
            try done; simpl in * ).
  all: rewrite ?get_object by (repeat apply set_object; exact Hobj); simpl.
  all: rewrite ?prop_size_set by (repeat apply set_object; exact Hobj).
  all: rewrite ?Hin, ?Hnan, ?Hfin; simpl.
  all: by rewrite writeItems_eq, Hw.
Qed.

Lemma update_bad_price e itemId payload d l index :
  loaded d = Arr l -> findIndex (hasId itemId) l = Ok (Some index) ->
  readable payload = true ->
  (isDefined (prop payload "size") = false
   \/ inEnumeration (prop payload "size") = true) ->
  isDefined (prop payload "price") = true ->
  convertible (prop payload "price") = true ->
  parseableFinite (prop payload "price") = false ->
  handleUpdateItem e itemId (JSON payload) d = (d, invalidPrice).
Proof.
  intros Hl Hf Hr Hsize Hdef Hc Hbad.
  destruct (findIndex_Some _ _ _ Hf) as (item & Hitem & Hobj%idIs_object).
  rewrite parseableFinite_eq, Hc in Hbad. simpl in Hbad.
  unfold handleUpdateItem, priceIsInvalid, parseFloat, isFinite, isNaN.
  run_io.
  rewrite readItems_eq, Hl. simpl. rewrite Hf. simpl.
  rewrite (found_present _ _ _ _ _ Hl Hf).
  rewrite !(get_readable _ _ Hr). simpl.
  rewrite Hitem, Hdef, Hc. simpl.
  destruct (isDefined (prop payload "name")); simpl;
    rewrite ?get_object by (repeat apply set_object; exact Hobj); simpl.
  all: destruct Hsize as [Hsize|Hsize];
    [rewrite Hsize; simpl
    |unfold inEnumeration in Hsize; apply andb_prop in Hsize as [Hstr Hin];
     destruct (prop payload "size") as [| | | |size| |] eqn:Hs; try done;
     simpl in * ].
  all: rewrite ?get_object by (repeat apply set_object; exact Hobj); simpl.
  all: rewrite ?prop_size_set by (repeat apply set_object; exact Hobj).
  all: rewrite ?Hin; simpl.
  all: destruct (is_nan (parseFloatOf (prop payload "price"))); simpl in *;
    [done|by rewrite Hbad].
Qed.

(** *** The item that an update writes *)

Lemma lookup_written_kept k props :
  (forall x, lookup k props = Some x -> isDefined x = true /\ json x = x) ->
  lookup k (jsonProperties json
              (assign k (default Undefined (lookup k props)) props)) =
  lookup k props.
Proof.
  intros H. destruct (lookup k props) as [x|] eqn:Hk; simpl.
  - destruct (H x eq_refl) as [Hd Hj].
    by rewrite lookup_written_defined, Hj.
  - by apply lookup_written_undefined.
Qed.

Lemma prop_Obj k props : prop (Obj props) k = default Undefined (lookup k props).
Proof. reflexivity. Qed.

Lemma written_fields item payload :
  storedItem item ->
  let w := json (updated item payload) in
  storedItem w
  /\ prop w "id" = prop item "id"
  /\ prop w "name" =
     (if isDefined (prop payload "name") then json (prop payload "name")
      else prop item "name")
  /\ prop w "price" =
     (if isDefined (prop payload "price")
      then json (Num (parseFloatOf (prop payload "price")))
      else prop item "price")
  /\ prop w "size" =
     (if isDefined (prop payload "size")
      then Str (toLowerCase (interpolate (prop payload "size")))
      else prop item "size").
Proof.
  intros [Hobj Hst]. destruct item as [| | | | | |props]; try done.
  rewrite json_Obj in Hst. injection Hst as Hst.
  pose proof (fun x => stored_lookup "name" x _ Hst) as Hname.
  pose proof (fun x => stored_lookup "price" x _ Hst) as Hprice.
  pose proof (fun x => stored_lookup "size" x _ Hst) as Hsize.
  unfold updated, JS.set. cbv zeta. rewrite json_Obj.
  split; [apply (storedItem_json_object (assign _ _ _))|].
  rewrite !prop_Obj.
  set (n' := if isDefined (prop payload "name") then _ else _).
  set (props1 := assign "name" n' props).
  set (p' := if isDefined (prop payload "price") then _ else _).
  set (props2 := assign "price" p' props1).
  set (s' := if isDefined (prop payload "size") then _ else _).
  assert (H1 : forall k, k <> "name" -> lookup k props1 = lookup k props).
  { intros k Hk. unfold props1. rewrite lookup_assign.
    by destruct (String.eqb_spec "name" k). }
  assert (H2 : forall k, k <> "price" -> lookup k props2 = lookup k props1).
  { intros k Hk. unfold props2. rewrite lookup_assign.
    by destruct (String.eqb_spec "price" k). }
  rewrite !(lookup_written_other "size") by done.
  unfold props2 at 1 2. rewrite !(lookup_written_other "price") by done.
  unfold props1 at 1. rewrite !(lookup_written_other "name") by done.
  rewrite Hst. split; [done|]. split; [|split].
  - unfold props1, n'. destruct (isDefined (prop payload "name")) eqn:Hd.
    + by rewrite lookup_written_defined.
    + by rewrite lookup_written_kept.
  - unfold props2, p'. destruct (isDefined (prop payload "price")) eqn:Hd.
    + by rewrite lookup_written_defined.
    + rewrite lookup_written_kept; rewrite H1 by done; done.
  - unfold s'. destruct (isDefined (prop payload "size")) eqn:Hd.
    + by rewrite lookup_written_defined.
    + rewrite lookup_written_kept; rewrite H2, H1 by done; done.
Qed.

(** C6. An update of a collection leaves a collection of the same length
    in which every item keeps its id and every field the payload omits, and
    every item but the first one with the given id is unchanged.  E.g.
    PUT [{price: 2}] on [{name: "A", price: 1, size: "s"}] gives
    [{name: "A", price: 2, size: "s"}] under the same id. *)
Theorem update_frame e itemId payload d l :
  loaded d = Arr l -> collection l ->
  (exists l',
     loaded (fst (handleUpdateItem e itemId (JSON payload) d)) = Arr l'
     /\ collection l' /\ List.length l' = List.length l
     /\ forall j item, l !! j = Some item ->
          exists item',
            l' !! j = Some item'
            /\ prop item' "id" = prop item "id"
            /\ (prop payload "name" = Undefined ->
                prop item' "name" = prop item "name")
            /\ (prop payload "price" = Undefined ->
                prop item' "price" = prop item "price")
            /\ (prop payload "size" = Undefined ->
                prop item' "size" = prop item "size")
            /\ (indexOf itemId l <> Some j -> item' = item))
  /\ handleUpdateItem anEnv "a" (JSON (Obj [("price", Num (of_Z 2))]))
       (Some (JSON (Arr [anItem "a" "A" 1 "s"]))) =
     (Some (JSON (Arr [anItem "a" "A" 2 "s"])),
      sendJsonResponse 200 true "Item updated successfully."
        (anItem "a" "A" 2 "s")).
Proof.
  intros Hd Hl. split; [|by vm_compute].
  destruct (update_outcome e itemId payload d) as (H200 & Hother & _).
  destruct (decide (status (snd (handleUpdateItem e itemId (JSON payload) d)) = 200))
    as [Hs|Hs].
  - destruct (H200 Hs) as (l0 & index & Hd0 & Hf & Hw & Hr & Hp & ->).
    rewrite Hd in Hd0. injection Hd0 as <-.
    rewrite (findIndex_collection _ _ Hl) in Hf. injection Hf as Hf.
    destruct (indexOf_Some _ _ _ Hf) as (item & Hitem & Hid).
    assert (Hst : storedItem item).
    { eapply Forall_lookup_1; eauto. }
    rewrite Hitem. simpl default.
    destruct (written_fields item payload Hst) as (Hw' & Hwid & Hwn & Hwp & Hws).
    rewrite json_collection_insert by done.
    assert (Hel : jsonElement (updated item payload) = json (updated item payload)).
    { destruct Hst as [Ho _]. by destruct item. }
    rewrite Hel. simpl.
    eexists. split; [reflexivity|]. split_and!.
    + by apply Forall_insert.
    + apply length_insert.
    + intros j item0 Hj. destruct (decide (j = index)) as [->|Hne].
      * exists (json (updated item payload)).
        rewrite list_lookup_insert_eq by (by eapply lookup_lt_Some).
        assert (item0 = item) as -> by congruence.
        split; [done|]. split; [done|].
        split; [intros Hu; by rewrite Hwn, Hu|].
        split; [intros Hu; by rewrite Hwp, Hu|].
        split; [intros Hu; by rewrite Hws, Hu|].
        by rewrite Hf.
      * exists item0. rewrite list_lookup_insert_ne by done. by split_and!.
  - rewrite (Hother Hs), loaded_afterLoad, Hd.
    exists l. split_and!; try done.
    intros j item Hj. exists item. by split_and!.
Qed.

Lemma update_frame_witness :
  let l := [anItem "a" "A" 1 "s"; anItem "b" "B" 2 "m"] in
  let payload := Obj [("price", Num (of_Z 2))] in
  (loaded (Some (JSON (Arr l))) = Arr l /\ collection l)
  /\ exists l',
       loaded (fst (handleUpdateItem anEnv "a" (JSON payload)
                      (Some (JSON (Arr l))))) = Arr l'
       /\ collection l' /\ List.length l' = List.length l
       /\ forall j item, l !! j = Some item ->
            exists item',
              l' !! j = Some item'
              /\ prop item' "id" = prop item "id"
              /\ (prop payload "name" = Undefined ->
                  prop item' "name" = prop item "name")
              /\ (prop payload "price" = Undefined ->
                  prop item' "price" = prop item "price")
              /\ (prop payload "size" = Undefined ->
                  prop item' "size" = prop item "size")
              /\ (indexOf "a" l <> Some j -> item' = item).
Proof.
  intros l payload.
  assert (Hl : collection l) by (repeat constructor).
  split; [done|].
  by apply (update_frame anEnv "a" payload (Some (JSON (Arr l))) l).
Defined.

(** *** The validation rule on update *)

Lemma passesUpdate_signless payload :
  passesUpdate payload = signless_validateForUpdate payload.
Proof.
  unfold passesUpdate, signless_validateForUpdate, inEnumeration.
  rewrite parseableFinite_eq. apply andb_comm.
Qed.

(** C3, the claim as stated fails: an update whose name is the empty
    string, and an update whose price is -1, do not satisfy the rule of the
    specification and are answered 200, the empty name and the negative
    price being stored. *)
Lemma update_rule_counterexample :
  (spec_validateForUpdate (Obj [("name", Str "")]) = false
   /\ handleUpdateItem anEnv "a" (JSON (Obj [("name", Str "")]))
        (storeOf [anItem "a" "A" 1 "s"]) =
      (storeOf [anItem "a" "" 1 "s"],
       sendJsonResponse 200 true "Item updated successfully."
         (anItem "a" "" 1 "s")))
  /\ (spec_validateForUpdate (Obj [("price", Num (of_Z (-1)))]) = false
      /\ handleUpdateItem anEnv "a" (JSON (Obj [("price", Num (of_Z (-1)))]))
           (storeOf [anItem "a" "A" 1 "s"]) =
         (storeOf [anItem "a" "A" (-1) "s"],
          sendJsonResponse 200 true "Item updated successfully."
            (anItem "a" "A" (-1) "s"))).
Proof. by vm_compute. Qed.

Lemma update_write_failure e itemId payload d l index :
  loaded d = Arr l -> findIndex (hasId itemId) l = Ok (Some index) ->
  writable e = false -> readable payload = true ->
  passesUpdate payload = true ->
  handleUpdateItem e itemId (JSON payload) d =
  (d, sendJsonResponse 500 false
        "Internal server error while updating item: Failed to persist items."
        Null).
Proof.
  intros Hl Hf Hw Hr Hp.
  destruct (findIndex_Some _ _ _ Hf) as (item & Hitem & Hobj%idIs_object).
  unfold passesUpdate in Hp. apply andb_prop in Hp as [Hsize Hprice].
  unfold handleUpdateItem, priceIsInvalid, parseFloat, isFinite, updated, isNaN.
  run_io.
  rewrite readItems_eq, Hl. simpl. rewrite Hf. simpl.
  rewrite (found_present _ _ _ _ _ Hl Hf).
  rewrite !(get_readable _ _ Hr). simpl.
  rewrite Hitem. simpl.
  destruct (isDefined (prop payload "name")); simpl;
    rewrite ?get_object by (repeat apply set_object; exact Hobj); simpl.
  all: destruct (isDefined (prop payload "price")); simpl in *.
  all: try (apply andb_prop in Hprice as [[Hc Hnan]%andb_prop Hfin];
            apply negb_true_iff in Hnan; rewrite Hc; simpl).
  all: rewrite ?get_object by (repeat apply set_object; exact Hobj); simpl.
  all: destruct (isDefined (prop payload "size")); simpl in *.
  all: try (apply andb_prop in Hsize as [Hstr Hin];
            destruct (prop payload "size") as [| | | |size| |] eqn:Hs;
            try done; simpl in * ).
  all: rewrite ?get_object by (repeat apply set_object; exact Hobj); simpl.
  all: rewrite ?prop_size_set by (repeat apply set_object; exact Hobj).
  all: rewrite ?Hin, ?Hnan, ?Hfin; simpl.
  all: by rewrite writeItems_eq, Hw.
Qed.

(** C3, amended: on an existing item, in a file that holds a collection,
    for a payload other than null whose name is absent or non-empty, update
    answers 200 exactly when the file can be written and the price, if
    present, is parseable as a finite number of either sign and the size,
    if present, is case-insensitively in the enumeration.  Then the item is
    replaced in place by one that has the same id, each present field
    replaced (the name as given, the price as the number read, the size in
    lower case) and each absent field as before.  When price and size pass
    but the file cannot be written, the answer is 500 and nothing is
    written.  Otherwise, when the size is absent or a string and the price
    converts to text, the answer is 400 and nothing is written. *)
Theorem update_validates e itemId payload d l index item :
  loaded d = Arr l -> collection l ->
  indexOf itemId l = Some index -> l !! index = Some item ->
  readable payload = true ->
  isDefined (prop payload "name") = false \/ truthy (prop payload "name") = true ->
  let R := handleUpdateItem e itemId (JSON payload) d in
  (status (snd R) = 200
   <-> signless_validateForUpdate payload = true /\ writable e = true)
  /\ (signless_validateForUpdate payload = true -> writable e = true ->
      exists item',
        fst R = Some (JSON (Arr (<[index := item']> l)))
        /\ data (snd R) = item'
        /\ prop item' "id" = prop item "id"
        /\ prop item' "name" =
           (if isDefined (prop payload "name") then json (prop payload "name")
            else prop item "name")
        /\ prop item' "price" =
           (if isDefined (prop payload "price")
            then Num (reread (parseFloatOf (prop payload "price")))
            else prop item "price")
        /\ prop item' "size" =
           (if isDefined (prop payload "size")
            then Str (toLowerCase (interpolate (prop payload "size")))
            else prop item "size"))
  /\ (signless_validateForUpdate payload = true -> writable e = false ->
      status (snd R) = 500 /\ fst R = d)
  /\ (signless_validateForUpdate payload = false ->
      isDefined (prop payload "size") = false
        \/ isString (prop payload "size") = true ->
      convertible (prop payload "price") = true ->
      status (snd R) = 400 /\ fst R = d).
Proof.
  intros Hd Hl Hi Hitem Hr _ R.
  assert (Hf : findIndex (hasId itemId) l = Ok (Some index))
    by (by rewrite findIndex_collection, Hi).
  assert (Hst : storedItem item) by (eapply Forall_lookup_1; eauto).
  assert (Hpass : signless_validateForUpdate payload = true ->
                  writable e = true ->
                  R = (Some (JSON (json (Arr (<[index := updated item payload]> l)))),
                       sendJsonResponse 200 true "Item updated successfully."
                         (updated item payload))).
  { intros Hp Hw. rewrite <- passesUpdate_signless in Hp. unfold R.
    rewrite (update_passes e itemId payload d l index) by done.
    by rewrite Hitem. }
  split_and!.
  - split.
    + intros H200. apply update_outcome in H200
        as (? & ? & _ & _ & Hw & _ & Hp & _).
      by rewrite <- passesUpdate_signless.
    + intros [Hp Hw]. by rewrite (Hpass Hp Hw).
  - intros Hp Hw. rewrite (Hpass Hp Hw). simpl.
    destruct (written_fields item payload Hst) as (Hw' & Hwid & Hwn & Hwp & Hws).
    exists (json (updated item payload)).
    rewrite json_collection_insert by done.
    assert (Hobj : isObject (updated item payload) = true).
    { unfold updated. repeat apply set_object. apply Hst. }
    assert (Hel : jsonElement (updated item payload) = json (updated item payload))
      by (by destruct (updated item payload)).
    rewrite Hel.
    assert (Hdata : json (match updated item payload with
                          | Undefined => Null
                          | _ => updated item payload
                          end) = json (updated item payload))
      by (by destruct (updated item payload)).
    rewrite Hdata. split_and!; try done.
    rewrite Hwp. destruct (isDefined (prop payload "price")) eqn:Hdp; [|done].
    rewrite json_Num.
    unfold signless_validateForUpdate in Hp. rewrite Hdp in Hp. simpl in Hp.
    apply andb_prop in Hp as [Hp _]. rewrite parseableFinite_eq in Hp.
    apply andb_prop in Hp as [[_ Hnan%negb_true_iff]%andb_prop Hfin].
    by rewrite (parseFloatOf_finite _ Hnan Hfin).
  - intros Hp Hw. rewrite <- passesUpdate_signless in Hp. unfold R.
    by rewrite (update_write_failure e itemId payload d l index).
  - intros Hp Hsize Hc. unfold signless_validateForUpdate in Hp.
    destruct (isDefined (prop payload "size")) eqn:Hds; simpl in Hp.
    + destruct Hsize as [|Hstr]; [done|].
      destruct (inEnumeration (prop payload "size")) eqn:Hen.
      * rewrite andb_true_r in Hp.
        apply orb_false_iff in Hp as [Hdp%negb_false_iff Hbad].
        unfold R. rewrite (update_bad_price e itemId payload d l index);
          try done.
        by right.
      * destruct (prop payload "size") as [| | | |size| |] eqn:Hs; try done.
        unfold R. by rewrite (update_bad_size e itemId payload d l index size).
    + rewrite andb_true_r in Hp.
      apply orb_false_iff in Hp as [Hdp%negb_false_iff Hbad].
      unfold R. rewrite (update_bad_price e itemId payload d l index); try done.
      by left.
Qed.

Lemma update_validates_witness :
  let l := [anItem "a" "A" 1 "s"; anItem "b" "B" 2 "m"] in
  let payload := Obj [("price", Str "2.5"); ("size", Str "L")] in
  let R := handleUpdateItem anEnv "b" (JSON payload) (storeOf l) in
  (loaded (storeOf l) = Arr l /\ collection l /\ indexOf "b" l = Some 1%nat
   /\ l !! 1%nat = Some (anItem "b" "B" 2 "m")
   /\ readable payload = true
   /\ (isDefined (prop payload "name") = false
       \/ truthy (prop payload "name") = true))
  /\ (status (snd R) = 200
      <-> signless_validateForUpdate payload = true /\ writable anEnv = true).
Proof.
  intros l payload R.
  assert (Hl : collection l) by (repeat constructor).
  split; [split_and!; try done; by left|].
  by apply (update_validates anEnv "b" payload (storeOf l) l 1
              (anItem "b" "B" 2 "m") eq_refl Hl eq_refl eq_refl eq_refl
              (or_introl eq_refl)).
Defined.

(** ** Sizes outside the enumeration *)

(** C4, the claim as stated fails.  On create, a size outside the
    enumeration is answered with the message about missing fields, which
    does not echo it, when a field is empty: so for the size "xl" without a
    name, and for the empty size.  And a size that is no string (5) is
    answered 500, on create and on update. *)
Lemma size_rejection_counterexample :
  (status (snd (handleCreateItem anEnv
      (JSON (Obj [("price", Num (of_Z 1)); ("size", Str "xl")])) None)) = 400
   /\ ~ echoes "xl" (snd (handleCreateItem anEnv
      (JSON (Obj [("price", Num (of_Z 1)); ("size", Str "xl")])) None)))
  /\ (status (snd (handleCreateItem anEnv
         (JSON (payloadOf (Str "X") (Num (of_Z 1)) (Str ""))) None)) = 400
      /\ ~ echoes "" (snd (handleCreateItem anEnv
         (JSON (payloadOf (Str "X") (Num (of_Z 1)) (Str ""))) None)))
  /\ status (snd (handleCreateItem anEnv
       (JSON (payloadOf (Str "X") (Num (of_Z 1)) (Num (of_Z 5)))) None)) = 500
  /\ status (snd (handleUpdateItem anEnv "a"
       (JSON (Obj [("size", Num (of_Z 5))]))
       (storeOf [anItem "a" "A" 1 "s"]))) = 500.
Proof. split_and!; try by vm_compute. Qed.

Lemma create_bad_size e payload d size :
  prop payload "size" = Str size ->
  includes validSizes (Str (toLowerCase size)) = false ->
  handleCreateItem e (JSON payload) d =
  (d, if truthy (prop payload "name") && truthy (prop payload "price")
         && negb (isEmpty size)
      then invalidSize (Str size)
      else sendJsonResponse 400 false
             "Missing required fields: name, price, and size are mandatory."
             Null).
Proof.
  intros Hs Hbad.
  assert (Hr : readable payload = true) by (by destruct payload).
  unfold handleCreateItem. run_io.
  rewrite !(get_readable _ _ Hr). simpl. rewrite Hs. simpl.
  destruct (truthy (prop payload "name")), (truthy (prop payload "price")),
    (isEmpty size); simpl; try done.
  by rewrite Hbad.
Qed.

(** C4, amended: a create payload whose size is a string outside the
    enumeration is answered 400 and nothing is written; the message echoes
    the size when name, price and size are all non-empty, and is the one
    about missing fields otherwise (so for the empty string).  An update of
    an existing item whose payload has a string outside the enumeration as
    size (the empty string too) and a price, if any, that converts to text,
    is answered 400 with the message echoing the size, and nothing is
    written. *)
Theorem bad_size_rejected e payload size :
  prop payload "size" = Str size ->
  includes validSizes (Str (toLowerCase size)) = false ->
  (forall d,
     handleCreateItem e (JSON payload) d =
     (d, if truthy (prop payload "name") && truthy (prop payload "price")
            && negb (isEmpty size)
         then sendJsonResponse 400 false
                ("Invalid size '" ++ size ++ "'. Must be 's', 'm', or 'l'.")
                Null
         else sendJsonResponse 400 false
                "Missing required fields: name, price, and size are mandatory."
                Null)
     /\ status (snd (handleCreateItem e (JSON payload) d)) = 400
     /\ (truthy (prop payload "name") = true ->
         truthy (prop payload "price") = true -> size <> "" ->
         echoes size (snd (handleCreateItem e (JSON payload) d))))
  /\ (forall itemId d l,
        loaded d = Arr l -> collection l ->
        existsb (idIs itemId) l = true ->
        convertible (prop payload "price") = true ->
        handleUpdateItem e itemId (JSON payload) d =
        (d, sendJsonResponse 400 false
              ("Invalid size '" ++ size ++ "'. Must be 's', 'm', or 'l'.")
              Null)
        /\ status (snd (handleUpdateItem e itemId (JSON payload) d)) = 400
        /\ echoes size (snd (handleUpdateItem e itemId (JSON payload) d))).
Proof.
  intros Hs Hbad. split.
  - intros d. rewrite (create_bad_size e payload d size Hs Hbad).
    split_and!.
    + done.
    + by destruct (_ && _).
    + intros -> -> Hne. by destruct size.
  - intros itemId d l Hd Hl Hex Hc.
    assert (exists index, indexOf itemId l = Some index) as [index Hi].
    { clear -Hex. induction l as [|i l IH]; simpl in *; [done|].
      destruct (idIs itemId i); [by eexists|].
      destruct (IH Hex) as [index ->]. by eexists. }
    assert (Hf : findIndex (hasId itemId) l = Ok (Some index))
      by (by rewrite findIndex_collection, Hi).
    assert (Hr : readable payload = true) by (by destruct payload).
    by rewrite (update_bad_size e itemId payload d l index size).
Qed.

Lemma bad_size_rejected_witness :
  let payload := payloadOf (Str "X") (Num (of_Z 1)) (Str "xl") in
  let l := [anItem "a" "A" 1 "s"] in
  (prop payload "size" = Str "xl"
   /\ includes validSizes (Str (toLowerCase "xl")) = false
   /\ loaded (storeOf l) = Arr l /\ collection l
   /\ existsb (idIs "a") l = true
   /\ convertible (prop payload "price") = true)
  /\ echoes "xl" (snd (handleCreateItem anEnv (JSON payload) None))
  /\ echoes "xl" (snd (handleUpdateItem anEnv "a" (JSON payload) (storeOf l))).
Proof.
  intros payload l.
  assert (Hl : collection l) by (repeat constructor).
  split; [by split_and!|].
  destruct (bad_size_rejected anEnv payload "xl" eq_refl eq_refl) as [Hc Hu].
  split.
  - by apply (Hc None).
  - by apply (Hu "a" (storeOf l) l).
Defined.

(** ** The persisted items *)

Lemma validItems_collection l : Forall validItem l -> collection l.
Proof. intros H. eapply Forall_impl; [exact H|]. by intros i [? _]. Qed.

Lemma validItem_created e payload :
  uuid e <> "" -> passesCreate payload = true ->
  validItem (json (created e payload)).
Proof.
  intros Hid Hp. split; [apply storedItem_json_object|].
  pose proof (passesCreate_inv _ Hp) as (Hn & (size & Hs & Hin) & Hfin).
  rewrite (json_created e payload Hp), Hs. simpl. split_and!.
  - by exists (uuid e).
  - eexists. split; [reflexivity|]. by rewrite is_finite_reread.
  - by exists (toLowerCase size).
Qed.

Lemma passesUpdate_inv payload :
  passesUpdate payload = true ->
  (isDefined (prop payload "size") = true ->
   In (toLowerCase (interpolate (prop payload "size"))) validSizes)
  /\ (isDefined (prop payload "price") = true ->
      is_finite (parseFloatOf (prop payload "price")) = true).
Proof.
  unfold passesUpdate. intros [Hs Hp]%andb_prop. split.
  - intros Hd. rewrite Hd in Hs. simpl in Hs.
    apply andb_prop in Hs as [_ Hin].
    unfold includes in Hin. apply existsb_exists in Hin as (x & Hx & Heq).
    simpl in Heq. apply String.eqb_eq in Heq. by subst.
  - intros Hd. rewrite Hd in Hp. simpl in Hp.
    apply andb_prop in Hp as [[_ Hnan%negb_true_iff]%andb_prop Hfin].
    by apply parseFloatOf_finite.
Qed.

Lemma validItem_updated item payload :
  validItem item -> passesUpdate payload = true ->
  validItem (json (updated item payload)).
Proof.
  intros [Hst (Hid & Hprice & Hsize)] Hp.
  destruct (written_fields item payload Hst) as (Hw & Hwid & _ & Hwp & Hws).
  destruct (passesUpdate_inv _ Hp) as [Hin Hfin].
  split; [done|]. split_and!.
  - unfold hasNonEmptyId. by rewrite Hwid.
  - unfold hasFinitePrice. rewrite Hwp.
    destruct (isDefined (prop payload "price")); [|done].
    rewrite json_Num, Hfin by done. eexists. split; [done|].
    rewrite is_finite_reread. by apply Hfin.
  - unfold hasValidSize. rewrite Hws.
    destruct (isDefined (prop payload "size")); [|done].
    eexists. split; [done|]. by apply Hin.
Qed.

Lemma perform_preserves e o d l :
  uuid e <> "" -> loaded d = Arr l -> Forall validItem l ->
  exists l', loaded (fst (perform e o d)) = Arr l' /\ Forall validItem l'.
Proof.
  intros Hid Hd Hl. pose proof (validItems_collection _ Hl) as Hc.
  destruct o as [body|itemId body|itemId]; simpl.
  - destruct (decide (status (snd (handleCreateItem e body d)) = 201))
      as [H201|Hne].
    + destruct body as [| |payload]; try done.
      apply create_201 in H201 as (Hp & Hw & l' & Hd' & ->).
      rewrite Hd in Hd'. injection Hd' as <-. simpl.
      rewrite json_collection_app by done.
      eexists. split; [reflexivity|].
      apply Forall_app. split; [done|]. constructor; [|constructor].
      unfold jsonElement. simpl. by apply validItem_created.
    + rewrite (create_not_201 _ _ _ Hne), Hd. by exists l.
  - destruct body as [| |payload]; [by exists l..|].
    destruct (update_outcome e itemId payload d) as (H200 & Hother & _).
    destruct (decide (status (snd (handleUpdateItem e itemId (JSON payload) d))
                      = 200)) as [Hs|Hs].
    + destruct (H200 Hs) as (l0 & index & Hd0 & Hf & Hw & Hr & Hp & ->).
      rewrite Hd in Hd0. injection Hd0 as <-.
      destruct (findIndex_Some _ _ _ Hf) as (item & Hitem & Hobj).
      rewrite Hitem. simpl.
      rewrite json_collection_insert by done.
      eexists. split; [reflexivity|].
      apply Forall_insert; [done|].
      assert (Hv : validItem item) by (eapply Forall_lookup_1; eauto).
      assert (Ho : isObject (updated item payload) = true).
      { unfold updated. repeat apply set_object. apply Hv. }
      assert (Hel : jsonElement (updated item payload)
                    = json (updated item payload))
        by (by destruct (updated item payload)).
      rewrite Hel. by apply validItem_updated.
    + rewrite (Hother Hs), loaded_afterLoad, Hd. by exists l.
  - rewrite (delete_collection e itemId d l Hd Hc).
    destruct (existsb (idIs itemId) l); [destruct (writable e)|]; simpl.
    + eexists. split; [reflexivity|]. unfold without.
      clear -Hl. induction Hl as [|i l Hi _ IH]; simpl; [constructor|].
      destruct (negb (idIs itemId i)); [by constructor|done].
    + rewrite loaded_afterLoad, Hd. by exists l.
    + rewrite loaded_afterLoad, Hd. by exists l.
Qed.

(** C1, the claim as stated fails: creating an item with price -1 in an
    empty collection persists an item whose price is negative. *)
Lemma persisted_invariant_counterexample :
  exists item,
    loaded (run [(anEnv,
                  Create (JSON (payloadOf (Str "X") (Num (of_Z (-1))) (Str "m"))))]
              (storeOf [])) = Arr [item]
    /\ ~ spec_itemInvariant item.
Proof.
  eexists. split; [by vm_compute|].
  intros (_ & (price & Hprice & Hneg) & _).
  vm_compute in Hprice. injection Hprice as <-. by vm_compute in Hneg.
Qed.

(** C1, amended: after any sequence of create, update and delete
    operations on an empty collection (the identifiers drawn being
    non-empty), the file holds an array of items that each have a non-empty
    id, a price that is a finite number (negative or not) and a size in the
    enumeration. *)
Theorem persisted_invariant trace d :
  loaded d = Arr [] ->
  Forall (fun step => uuid (fst step) <> "") trace ->
  exists l, loaded (run trace d) = Arr l /\ Forall itemInvariant l.
Proof.
  intros Hd Hids.
  assert (H : exists l, loaded (run trace d) = Arr l /\ Forall validItem l).
  { assert (Hinv : exists l, loaded d = Arr l /\ Forall validItem l)
      by (exists []; by split).
    clear Hd. revert d Hinv.
    induction Hids as [|[e o] trace He _ IH]; intros d Hinv; simpl; [done|].
    apply IH. destruct Hinv as (l & Hd & Hl).
    by apply (perform_preserves e o d l). }
  destruct H as (l & Hrun & Hl). exists l. split; [done|].
  eapply Forall_impl; [exact Hl|]. by intros i [_ ?].
Qed.

Lemma persisted_invariant_witness :
  let trace :=
    [(anEnv, Create (JSON (payloadOf (Str "X") (Num (of_Z (-1))) (Str "M"))));
     (anEnv, Update (uuid anEnv) (JSON (Obj [("price", Str "3")])));
     (anEnv, Delete "none")] in
  (loaded None = Arr []
   /\ Forall (fun step => uuid (fst step) <> "") trace)
  /\ exists l, loaded (run trace None) = Arr l /\ Forall itemInvariant l.
Proof.
  intros trace.
  assert (Hids : Forall (fun step => uuid (fst step) <> "") trace)
    by (repeat constructor; done).
  split; [by split|].
  by apply (persisted_invariant trace None eq_refl Hids).
Defined.

(** C10. Whenever create or update answers 400, for a body that is not
    JSON or for a field that fails validation, the file is exactly what it
    was before the request. *)
Theorem validation_failure_writes_nothing e d :
  (forall body,
     status (snd (handleCreateItem e body d)) = 400 ->
     fst (handleCreateItem e body d) = d)
  /\ (forall itemId body,
        status (snd (handleUpdateItem e itemId body d)) = 400 ->
        fst (handleUpdateItem e itemId body d) = d).
Proof.
  split.
  - intros body. apply create_400_untouched.
  - intros itemId body. apply update_400_untouched.
Qed.

Lemma validation_failure_writes_nothing_witness :
  let d := storeOf [anItem "a" "A" 1 "s"] in
  let bad := JSON (Obj [("price", Str "cheap")]) in
  (status (snd (handleCreateItem anEnv Garbage d)) = 400
   /\ status (snd (handleUpdateItem anEnv "a" bad d)) = 400)
  /\ fst (handleCreateItem anEnv Garbage d) = d
  /\ fst (handleUpdateItem anEnv "a" bad d) = d.
Proof.
  intros d bad. split; [by split|].
  destruct (validation_failure_writes_nothing anEnv d) as [Hc Hu].
  split.
  - by apply (Hc Garbage).
  - by apply (Hu "a" bad).
Defined.

(** ** Routing *)

(** C9, the claim as stated fails: GET /items/a/b is none of the five
    operations, and it is served as GET /items/a (200 when the item
    exists), not answered 405. *)
Lemma routing_counterexample :
  segments "/items/a/b" = ["items"; "a"; "b"]
  /\ apiServer anEnv {| method := "GET"; url := "/items/a/b"; body := Blank |}
       (storeOf [anItem "a" "A" 1 "s"]) =
     (storeOf [anItem "a" "A" 1 "s"],
      sendJsonResponse 200 true "Successfully retrieved item."
        (anItem "a" "A" 1 "s")).
Proof. by vm_compute. Qed.

(** C9, amended: routing looks at the method and at the first two
    non-empty segments of the URL only.  When the first segment is not
    exactly [items] the answer is 404.  When it is, GET is served as get-one
    or list according to whether there is a second segment, POST without a
    second segment as create, PUT and DELETE with a second segment as update
    and delete, whatever segments follow; every other combination is
    answered 405.  The 404 and the 405 carry the envelope with
    [success = false] and [data = null] and leave the file alone. *)
Theorem routing_total e req d :
  let urlBase := segments (url req) !! 0%nat in
  let itemId := segments (url req) !! 1%nat in
  (urlBase <> Some "items" ->
   apiServer e req d = (d, endpointNotFound))
  /\ (urlBase = Some "items" ->
      (method req = "GET" ->
       apiServer e req d =
       match itemId with
       | Some id => handleGetOneItem e id d
       | None => handleGetAllItems e d
       end)
      /\ (method req = "POST" -> itemId = None ->
          apiServer e req d = handleCreateItem e (body req) d)
      /\ (forall id, method req = "PUT" -> itemId = Some id ->
          apiServer e req d = handleUpdateItem e id (body req) d)
      /\ (forall id, method req = "DELETE" -> itemId = Some id ->
          apiServer e req d = handleDeleteItem e id d)
      /\ (method req <> "GET" ->
          ~ (method req = "POST" /\ itemId = None) ->
          ~ (method req = "PUT" /\ is_Some itemId) ->
          ~ (method req = "DELETE" /\ is_Some itemId) ->
          apiServer e req d = (d, methodNotAllowed)))
  /\ (status endpointNotFound = 404 /\ failureEnvelope endpointNotFound)
  /\ (status methodNotAllowed = 405 /\ failureEnvelope methodNotAllowed).
Proof.
  intros urlBase itemId. unfold apiServer. fold urlBase itemId.
  split; [|split; [|done]].
  - intros Hne. by rewrite bool_decide_eq_false_2.
  - intros Hbase. rewrite bool_decide_eq_true_2 by done. split_and!.
    + intros ->. simpl. by destruct itemId.
    + by intros -> ->.
    + by intros id -> ->.
    + by intros id -> ->.
    + intros Hget Hpost Hput Hdelete.
      destruct (String.eqb_spec (method req) "GET"); [done|].
      destruct (String.eqb_spec (method req) "POST"),
        (String.eqb_spec (method req) "PUT"),
        (String.eqb_spec (method req) "DELETE"),
        itemId as [id|]; simpl; try done; try congruence.
      all: try (exfalso; apply Hpost; done).
      all: try (exfalso; apply Hput; done).
      all: try (exfalso; apply Hdelete; done).
Qed.

Lemma routing_total_witness :
  let patch := {| method := "PATCH"; url := "/items/a"; body := Blank |} in
  let other := {| method := "GET"; url := "/stock"; body := Blank |} in
  (segments (url other) !! 0%nat <> Some "items"
   /\ segments (url patch) !! 0%nat = Some "items"
   /\ method patch <> "GET"
   /\ ~ (method patch = "POST" /\ segments (url patch) !! 1%nat = None)
   /\ ~ (method patch = "PUT" /\ is_Some (segments (url patch) !! 1%nat))
   /\ ~ (method patch = "DELETE" /\ is_Some (segments (url patch) !! 1%nat)))
  /\ apiServer anEnv other None = (None, endpointNotFound)
  /\ apiServer anEnv patch None = (None, methodNotAllowed).
Proof.
  intros patch other.
  assert (H1 : segments (url other) !! 0%nat <> Some "items") by done.
  assert (H2 : method patch <> "GET") by done.
  assert (H3 : ~ (method patch = "POST"
                  /\ segments (url patch) !! 1%nat = None)) by (by intros [? _]).
  assert (H4 : ~ (method patch = "PUT"
                  /\ is_Some (segments (url patch) !! 1%nat)))
    by (by intros [? _]).
  assert (H5 : ~ (method patch = "DELETE"
                  /\ is_Some (segments (url patch) !! 1%nat)))
    by (by intros [? _]).
  split; [by split_and!|]. split.
  - by apply (routing_total anEnv other None).
  - by apply (routing_total anEnv patch None).
Defined.

(** * Further properties of the handlers and of the file server *)

(** ** Reasoning along a handler, one operation at a time *)

Lemma holds_bind {A B} (m : IO A) (k : A -> IO B) d Q :
  holds m d (fun d' r =>
    match r with
    | Ok a => holds (k a) d' Q
    | Throw err => Q d' (Throw err)
    end) ->
  holds (bind m k) d Q.
Proof.
  unfold holds, bind. destruct (m d) as [d' [a|err]]; simpl; auto.
Qed.

Lemma holds_ret {A} (a : A) d (Q : disk -> result A -> Prop) :
  Q d (Ok a) -> holds (ret a) d Q.
Proof. auto. Qed.

Lemma holds_eval {A} (r : result A) d (Q : disk -> result A -> Prop) :
  Q d r -> holds (eval r) d Q.
Proof. auto. Qed.

Lemma holds_readItems e d (Q : disk -> result value -> Prop) :
  Q (afterLoad e d) (Ok (loaded d)) -> holds (total (readItems e)) d Q.
Proof. unfold holds, total. by rewrite readItems_eq. Qed.

Lemma holds_writeItems e items d (Q : disk -> result unit -> Prop) :
  (writable e = true -> Q (Some (JSON (json items))) (Ok tt)) ->
  (writable e = false -> Q d (Throw (Error "Failed to persist items."))) ->
  holds (writeItems e items) d Q.
Proof.
  unfold holds. rewrite writeItems_eq. destruct (writable e); simpl; auto.
Qed.

Lemma holds_handler {A} (body : IO A) handler d (Q : disk -> A -> Prop) :
  holds body d (fun d' r =>
    match r with
    | Ok a => Q d' a
    | Throw err => Q d' (handler err)
    end) ->
  Q (fst (try_catch_return body handler d))
    (snd (try_catch_return body handler d)).
Proof.
  unfold holds, try_catch_return. destruct (body d) as [d' [a|err]]; simpl; auto.
Qed.

Ltac hoare_step :=
  cbv beta iota zeta;
  match goal with
  | |- holds (bind _ _) _ _ => apply holds_bind
  | |- holds (ret _) _ _ => apply holds_ret
  | |- holds (total (readItems _)) _ _ => apply holds_readItems
  | |- holds (writeItems _ _) _ _ => apply holds_writeItems; intros ?
  | |- holds (priceIsInvalid _) _ _ => unfold priceIsInvalid
  | |- holds (eval ?r) _ _ =>
      apply holds_eval; cbv beta; destruct r eqn:?
  | |- holds (if ?b then _ else _) _ _ => destruct b eqn:?
  | |- holds (match ?o with Some _ => _ | None => _ end) _ _ => destruct o eqn:?
  end.

Ltac hoare := repeat hoare_step; cbv beta iota.

(** ** The envelope *)

Lemma envelope_failure s m :
  In s [400; 404; 405; 500]%nat -> envelopeOk (sendJsonResponse s false m Null).
Proof.
  intros Hs. split; [|split].
  - simpl in *. tauto.
  - simpl in Hs. by destruct Hs as [<-|[<-|[<-|[<-|[]]]]].
  - reflexivity.
Qed.

Lemma envelope_success s m v :
  In s [200; 201]%nat -> envelopeOk (sendJsonResponse s true m v).
Proof.
  intros Hs. split; [|split].
  - simpl in *. tauto.
  - simpl in Hs. by destruct Hs as [<-|[<-|[]]].
  - done.
Qed.

Lemma envelope_200 m v : envelopeOk (sendJsonResponse 200 true m v).
Proof. apply envelope_success. by left. Qed.

Lemma envelope_201 m v : envelopeOk (sendJsonResponse 201 true m v).
Proof. apply envelope_success. by right; left. Qed.

Lemma envelope_400 m : envelopeOk (sendJsonResponse 400 false m Null).
Proof. apply envelope_failure. by left. Qed.

Lemma envelope_404 m : envelopeOk (sendJsonResponse 404 false m Null).
Proof. apply envelope_failure. by right; left. Qed.

Lemma envelope_405 m : envelopeOk (sendJsonResponse 405 false m Null).
Proof. apply envelope_failure. by right; right; left. Qed.

Lemma envelope_500 m : envelopeOk (sendJsonResponse 500 false m Null).
Proof. apply envelope_failure. by right; right; right; left. Qed.

Lemma envelope_handler (err : exn) m m' :
  envelopeOk (if instanceofSyntaxError err
              then sendJsonResponse 400 false m Null
              else sendJsonResponse 500 false m' Null).
Proof.
  destruct (instanceofSyntaxError err); [apply envelope_400 | apply envelope_500].
Qed.

Ltac envelope :=
  unfold notFound, invalidSize, invalidPrice, methodNotAllowed, endpointNotFound;
  lazymatch goal with
  | |- envelopeOk (if instanceofSyntaxError _ then _ else _) =>
      apply envelope_handler
  | |- envelopeOk (sendJsonResponse 200 _ _ _) => apply envelope_200
  | |- envelopeOk (sendJsonResponse 201 _ _ _) => apply envelope_201
  | |- envelopeOk (sendJsonResponse 400 _ _ _) => apply envelope_400
  | |- envelopeOk (sendJsonResponse 404 _ _ _) => apply envelope_404
  | |- envelopeOk (sendJsonResponse 405 _ _ _) => apply envelope_405
  | |- envelopeOk (sendJsonResponse 500 _ _ _) => apply envelope_500
  end.

Lemma getAll_envelope e d : envelopeOk (snd (handleGetAllItems e d)).
Proof.
  apply (holds_handler _ _ d (fun _ r => envelopeOk r)).
  hoare; envelope.
Qed.

Lemma getOne_envelope e itemId d : envelopeOk (snd (handleGetOneItem e itemId d)).
Proof.
  apply (holds_handler _ _ d (fun _ r => envelopeOk r)).
  hoare; envelope.
Qed.

Lemma create_envelope e body d : envelopeOk (snd (handleCreateItem e body d)).
Proof.
  apply (holds_handler _ _ d (fun _ r => envelopeOk r)).
  hoare; envelope.
Qed.

Lemma update_envelope e itemId body d :
  envelopeOk (snd (handleUpdateItem e itemId body d)).
Proof.
  apply (holds_handler _ _ d (fun _ r => envelopeOk r)).
  hoare; envelope.
Qed.

Lemma delete_envelope e itemId d : envelopeOk (snd (handleDeleteItem e itemId d)).
Proof.
  apply (holds_handler _ _ d (fun _ r => envelopeOk r)).
  hoare; envelope.
Qed.

(** X3. Every response has one of six statuses, the success flag that goes
    with it, and null data on failure. *)
Theorem response_envelope e req d : envelopeOk (snd (apiServer e req d)).
Proof.
  unfold apiServer.
  repeat match goal with
  | |- context [if ?b then _ else _] => destruct b
  end;
  lazymatch goal with
  | |- context [handleGetAllItems] => apply getAll_envelope
  | |- context [handleGetOneItem] => apply getOne_envelope
  | |- context [handleCreateItem] => apply create_envelope
  | |- context [handleUpdateItem] => apply update_envelope
  | |- context [handleDeleteItem] => apply delete_envelope
  | |- _ => cbv beta; unfold snd; envelope
  end.
Qed.

(** ** Reading *)

Lemma getAll_eq e d :
  handleGetAllItems e d =
  (afterLoad e d,
   sendJsonResponse 200 true "Successfully retrieved all items." (loaded d)).
Proof.
  unfold handleGetAllItems, try_catch_return, bind, total, ret.
  by rewrite readItems_eq.
Qed.

Lemma getOne_file e itemId d : fst (handleGetOneItem e itemId d) = afterLoad e d.
Proof.
  apply (holds_handler _ _ d (fun d' _ => d' = afterLoad e d)).
  hoare; reflexivity.
Qed.

(** X1. Listing always answers 200, whatever the file holds, and listing
    again, with nothing in between, gives the same response. *)
Theorem list_is_repeatable e e' d :
  status (snd (handleGetAllItems e d)) = 200%nat
  /\ snd (handleGetAllItems e' (fst (handleGetAllItems e d)))
     = snd (handleGetAllItems e d).
Proof.
  rewrite !getAll_eq. simpl. by rewrite loaded_afterLoad.
Qed.

(** X2. A GET request never changes a file that exists; the only thing it
    can do to the file is create it, holding the empty array, while it
    does not exist. *)
Theorem get_keeps_the_file e req :
  method req = "GET" ->
  (forall t, fst (apiServer e req (Some t)) = Some t)
  /\ (fst (apiServer e req None) = None
      \/ fst (apiServer e req None) = Some (JSON (Arr []))).
Proof.
  intros Hm. unfold apiServer. rewrite Hm, String.eqb_refl.
  split; [intros t|];
  repeat match goal with
  | |- context [if ?b then _ else _] => destruct b
  end; rewrite ?getAll_eq, ?getOne_file; simpl; auto;
  destruct (writable e); auto.
Qed.

Lemma get_keeps_the_file_witness :
  method {| method := "GET"; url := "/items/a"; body := Blank |} = "GET"
  /\ fst (apiServer anEnv {| method := "GET"; url := "/items/a"; body := Blank |}
            (Some Garbage)) = Some Garbage.
Proof.
  split; [reflexivity|].
  apply (get_keeps_the_file anEnv
           {| method := "GET"; url := "/items/a"; body := Blank |}).
  reflexivity.
Defined.

(** ** When the file cannot be written *)

Lemma afterLoad_unwritable e d : writable e = false -> afterLoad e d = d.
Proof. intros H. destruct d; simpl; [done|]. by rewrite H. Qed.

Lemma success_handler (err : exn) m m' :
  success (if instanceofSyntaxError err
           then sendJsonResponse 400 false m Null
           else sendJsonResponse 500 false m' Null) = false.
Proof. by destruct (instanceofSyntaxError err). Qed.

Ltac unchanged Hw :=
  hoare; try congruence;
  (split; [by rewrite ?(afterLoad_unwritable _ _ Hw) | ]);
  first [ apply success_handler | reflexivity ].

Lemma create_unwritable e body d :
  writable e = false ->
  fst (handleCreateItem e body d) = d
  /\ success (snd (handleCreateItem e body d)) = false.
Proof.
  intros Hw.
  apply (holds_handler _ _ d (fun d' r => d' = d /\ success r = false)).
  unchanged Hw.
Qed.

Lemma update_unwritable e itemId body d :
  writable e = false ->
  fst (handleUpdateItem e itemId body d) = d
  /\ success (snd (handleUpdateItem e itemId body d)) = false.
Proof.
  intros Hw.
  apply (holds_handler _ _ d (fun d' r => d' = d /\ success r = false)).
  unchanged Hw.
Qed.

Lemma delete_unwritable e itemId d :
  writable e = false ->
  fst (handleDeleteItem e itemId d) = d
  /\ success (snd (handleDeleteItem e itemId d)) = false.
Proof.
  intros Hw.
  apply (holds_handler _ _ d (fun d' r => d' = d /\ success r = false)).
  unchanged Hw.
Qed.

(** X4. While the file cannot be written, no request changes it (an absent
    file stays absent), and no request other than a GET reports success. *)
Theorem unwritable_store e req d :
  writable e = false ->
  fst (apiServer e req d) = d
  /\ (method req <> "GET" -> success (snd (apiServer e req d)) = false).
Proof.
  intros Hw. unfold apiServer.
  destruct (String.eqb_spec (method req) "GET") as [Hm|Hm].
  - repeat match goal with
    | |- context [if ?b then _ else _] => destruct b
    end; rewrite ?getAll_eq, ?getOne_file; simpl;
    rewrite ?(afterLoad_unwritable _ _ Hw); done.
  - repeat match goal with
    | |- context [if ?b then _ else _] => destruct b
    end;
    lazymatch goal with
    | |- context [handleCreateItem] =>
        destruct (create_unwritable e (body req) d Hw); by split
    | |- context [handleUpdateItem ?e ?i ?b ?d] =>
        destruct (update_unwritable e i b d Hw); by split
    | |- context [handleDeleteItem ?e ?i ?d] =>
        destruct (delete_unwritable e i d Hw); by split
    | |- _ => by split
    end.
Qed.

Lemma unwritable_store_witness :
  let e := {| uuid := "a"; writable := false |} in
  let req := {| method := "DELETE"; url := "/items/a"; body := Blank |} in
  let d := storeOf [anItem "a" "Shirt" 10 "m"] in
  writable e = false
  /\ fst (apiServer e req d) = d
  /\ (method req <> "GET" -> success (snd (apiServer e req d)) = false).
Proof.
  split; [reflexivity|].
  apply (unwritable_store {| uuid := "a"; writable := false |}
           {| method := "DELETE"; url := "/items/a"; body := Blank |}
           (storeOf [anItem "a" "Shirt" 10 "m"])).
  reflexivity.
Defined.

(** ** A document that is not an array *)

Lemma asArray_Ok m v l : asArray m v = Ok l -> v = Arr l.
Proof. destruct v; try done. by intros [= ->]. Qed.

Ltac not_an_array Hv :=
  match goal with
  | H : asArray _ _ = Ok _ |- _ =>
      apply asArray_Ok in H; simpl in H; rewrite H in Hv; discriminate Hv
  end.

Lemma getOne_non_array e itemId v :
  isArray v = false ->
  handleGetOneItem e itemId (Some (JSON v)) =
  (Some (JSON v),
   sendJsonResponse 500 false "Internal server error while retrieving item." Null).
Proof.
  intros Hv.
  rewrite (surjective_pairing (handleGetOneItem e itemId (Some (JSON v)))).
  apply (holds_handler _ _ (Some (JSON v))
           (fun d' r => (d', r) = (Some (JSON v), sendJsonResponse 500 false
              "Internal server error while retrieving item." Null))).
  hoare; try not_an_array Hv; reflexivity.
Qed.

(** X5. While the file holds a JSON document that is not an array, no
    create, update or delete changes it or reports success, get-one
    answers 500, and the list answers 200 with that document. *)
Theorem non_array_document e v :
  isArray v = false ->
  let d := Some (JSON v) in
  (forall o, fst (perform e o d) = d /\ success (snd (perform e o d)) = false)
  /\ (forall itemId,
        handleGetOneItem e itemId d =
        (d, sendJsonResponse 500 false
              "Internal server error while retrieving item." Null))
  /\ handleGetAllItems e d =
     (d, sendJsonResponse 200 true "Successfully retrieved all items." v).
Proof.
  intros Hv d. split_and!.
  - intros [body|itemId body|itemId]; simpl;
      apply (holds_handler _ _ d (fun d' r => d' = d /\ success r = false));
      hoare; try not_an_array Hv;
      (split; [reflexivity|]); first [apply success_handler | reflexivity].
  - intros itemId. by apply getOne_non_array.
  - apply getAll_eq.
Qed.

Lemma non_array_document_witness :
  isArray (Obj []) = false
  /\ handleGetOneItem anEnv "a" (Some (JSON (Obj []))) =
     (Some (JSON (Obj [])),
      sendJsonResponse 500 false
        "Internal server error while retrieving item." Null).
Proof.
  split; [reflexivity|].
  apply (non_array_document anEnv (Obj [])). reflexivity.
Defined.

(** ** Create, then list *)

(** X6. On a collection, an accepted create appends: the file then holds
    the items it held, in their order, followed by the item of the
    response, and that is what the list returns. *)
Theorem create_appends e e' body d l :
  loaded d = Arr l -> collection l ->
  status (snd (handleCreateItem e body d)) = 201%nat ->
  let item := data (snd (handleCreateItem e body d)) in
  loaded (fst (handleCreateItem e body d)) = Arr (l ++ [item])
  /\ data (snd (handleGetAllItems e' (fst (handleCreateItem e body d))))
     = Arr (l ++ [item]).
Proof.
  intros Hd Hl H201.
  destruct body as [| |payload]; try done.
  apply create_201 in H201 as (Hp & Hw & l' & Hd' & ->).
  rewrite Hd in Hd'. injection Hd' as <-.
  rewrite getAll_eq. simpl.
  rewrite json_collection_app by done.
  split; [done|]. simpl.
  apply json_collection. apply Forall_app. split; [done|].
  constructor; [|constructor]. apply storedItem_json_object.
Qed.

Lemma create_appends_witness :
  let d := storeOf [anItem "a" "Shirt" 10 "m"] in
  let body := JSON (payloadOf (Str "Hat") (Str "4.5") (Str "L")) in
  loaded d = Arr [anItem "a" "Shirt" 10 "m"]
  /\ collection [anItem "a" "Shirt" 10 "m"]
  /\ status (snd (handleCreateItem anEnv body d)) = 201%nat
  /\ loaded (fst (handleCreateItem anEnv body d))
     = Arr ([anItem "a" "Shirt" 10 "m"]
            ++ [data (snd (handleCreateItem anEnv body d))]).
Proof.
  assert (Hc : collection [anItem "a" "Shirt" 10 "m"])
    by (repeat constructor; vm_compute; reflexivity).
  split; [reflexivity|]. split; [exact Hc|]. split; [vm_compute; reflexivity|].
  apply (create_appends anEnv anEnv
           (JSON (payloadOf (Str "Hat") (Str "4.5") (Str "L")))
           (storeOf [anItem "a" "Shirt" 10 "m"])
           [anItem "a" "Shirt" 10 "m"]);
    [reflexivity | exact Hc | vm_compute; reflexivity].
Defined.

(** ** Update, then get *)

Lemma find_inserted itemId l index w :
  indexOf itemId l = Some index -> idIs itemId w = true ->
  List.find (idIs itemId) (<[index := w]> l) = Some w.
Proof.
  revert index. induction l as [|i l IH]; intros index; simpl; [done|].
  destruct (idIs itemId i) eqn:Hi.
  - intros [= <-] Hw. simpl. by rewrite Hw.
  - destruct (indexOf itemId l) as [index'|]; [|done].
    intros [= <-] Hw. simpl. rewrite Hi. by apply IH.
Qed.

(** X7. On a collection, after an update answered 200, get-one on the same
    id answers 200 with the very item the update returned. *)
Theorem update_then_get e e' itemId body d l :
  loaded d = Arr l -> collection l ->
  status (snd (handleUpdateItem e itemId body d)) = 200%nat ->
  snd (handleGetOneItem e' itemId (fst (handleUpdateItem e itemId body d)))
  = sendJsonResponse 200 true "Successfully retrieved item."
      (data (snd (handleUpdateItem e itemId body d))).
Proof.
  intros Hd Hl H200.
  destruct body as [| |payload]; try done.
  destruct (update_outcome e itemId payload d) as (Hok & _ & _).
  destruct (Hok H200) as (l0 & index & Hd0 & Hf & Hw & Hr & Hp & ->).
  rewrite Hd in Hd0. injection Hd0 as <-.
  rewrite findIndex_collection in Hf by done. injection Hf as Hf.
  destruct (indexOf_Some _ _ _ Hf) as (item & Hitem & Hid).
  rewrite Hitem. simpl default.
  assert (Hst : storedItem item) by (eapply Forall_lookup_1; eauto).
  destruct (written_fields item payload Hst) as (Hws & Hwid & _).
  assert (Ho : isObject (updated item payload) = true).
  { unfold updated. repeat apply set_object. apply Hst. }
  assert (Hel : jsonElement (updated item payload) = json (updated item payload))
    by (by destruct (updated item payload)).
  cbn [fst snd]. rewrite json_collection_insert, Hel by done.
  erewrite getOne_collection; [|reflexivity|by apply Forall_insert].
  cbn [snd]. rewrite (find_inserted _ _ _ _ Hf).
  - unfold sendJsonResponse. cbn [data].
    by destruct (updated item payload).
  - unfold idIs in *. by rewrite Hwid.
Qed.

Lemma update_then_get_witness :
  let d := storeOf [anItem "a" "Shirt" 10 "m"; anItem "b" "Hat" 3 "s"] in
  let body := JSON (Obj [("price", Str "12.50")]) in
  loaded d = Arr [anItem "a" "Shirt" 10 "m"; anItem "b" "Hat" 3 "s"]
  /\ collection [anItem "a" "Shirt" 10 "m"; anItem "b" "Hat" 3 "s"]
  /\ status (snd (handleUpdateItem anEnv "b" body d)) = 200%nat
  /\ snd (handleGetOneItem anEnv "b" (fst (handleUpdateItem anEnv "b" body d)))
     = sendJsonResponse 200 true "Successfully retrieved item."
         (data (snd (handleUpdateItem anEnv "b" body d))).
Proof.
  assert (Hc : collection [anItem "a" "Shirt" 10 "m"; anItem "b" "Hat" 3 "s"])
    by (repeat constructor; vm_compute; reflexivity).
  split; [reflexivity|]. split; [exact Hc|]. split; [vm_compute; reflexivity|].
  apply (update_then_get anEnv anEnv "b" (JSON (Obj [("price", Str "12.50")]))
           (storeOf [anItem "a" "Shirt" 10 "m"; anItem "b" "Hat" 3 "s"])
           [anItem "a" "Shirt" 10 "m"; anItem "b" "Hat" 3 "s"]);
    [reflexivity | exact Hc | vm_compute; reflexivity].
Defined.

(** ** The sizes that are accepted *)

Lemma toLowerCase_spellings s :
  In (toLowerCase s) validSizes <-> In s sizeSpellings.
Proof.
  destruct s as [|c [|c' s']].
  - simpl. intuition discriminate.
  - destruct c as [[] [] [] [] [] [] [] []]; vm_compute;
      intuition congruence.
  - simpl. intuition discriminate.
Qed.

(** X8. Create answers 201 only for a size that is one of the six strings
    s, S, m, M, l, L (a word such as "small" is not one), and the item it
    answers has that letter in lower case as its size. *)
Theorem only_six_sizes e body d :
  status (snd (handleCreateItem e body d)) = 201%nat ->
  exists payload s,
    body = JSON payload
    /\ prop payload "size" = Str s
    /\ In s sizeSpellings
    /\ prop (data (snd (handleCreateItem e body d))) "size"
       = Str (toLowerCase s).
Proof.
  intros H201. destruct body as [| |payload]; try done.
  apply create_201 in H201 as (Hp & _ & l & _ & ->).
  destruct (passesCreate_inv _ Hp) as (_ & (s & Hs & Hin) & _).
  exists payload, s. split_and!; try done.
  - by apply toLowerCase_spellings.
  - change (data (snd (_, sendJsonResponse _ _ _ (created e payload))))
      with (json (created e payload)).
    rewrite (json_created _ _ Hp), Hs. reflexivity.
Qed.

Lemma only_six_sizes_witness :
  let body := JSON (payloadOf (Str "Hat") (Num (of_Z 4)) (Str "L")) in
  status (snd (handleCreateItem anEnv body None)) = 201%nat
  /\ exists payload s,
       body = JSON payload
       /\ prop payload "size" = Str s
       /\ In s sizeSpellings
       /\ prop (data (snd (handleCreateItem anEnv body None))) "size"
          = Str (toLowerCase s).
Proof.
  split; [vm_compute; reflexivity|].
  apply (only_six_sizes anEnv
           (JSON (payloadOf (Str "Hat") (Num (of_Z 4)) (Str "L"))) None).
  vm_compute; reflexivity.
Defined.

(** ** A price given as a string *)

Lemma parseFloatString_nonDecimal s x rest :
  nonDecimal (trimStart s) = Some (x, rest) ->
  parseFloatString s = S754_zero false.
Proof.
  intros Hn. unfold parseFloatString.
  apply nonDecimal_prefix in Hn as (c & s' & -> & ? & ? & ? & ?).
  by rewrite decimal_after_zero.
Qed.

Lemma priceIsInvalid_eq price d :
  convertible price = true ->
  priceIsInvalid price d =
  (d, Ok (is_nan (parseFloatOf price) || negb (is_finite (ToNumberOf price)))).
Proof.
  intros Hc.
  unfold priceIsInvalid, bind, eval, ret, parseFloat, isFinite, isNaN.
  rewrite Hc. by destruct (is_nan (parseFloatOf price)).
Qed.

(** X9. For a price that is a string, the test
    [isNaN(parseFloat(price)) || !isFinite(price)] rejects exactly the
    blank strings and the strings that [Number] does not read as a finite
    number: a numeric prefix followed by other text is rejected. *)
Theorem string_price_rule s d :
  priceIsInvalid (Str s) d =
  (d, Ok (isEmpty (trimStart s) || negb (is_finite (StringToNumber s)))).
Proof.
  rewrite priceIsInvalid_eq by reflexivity. do 2 f_equal.
  change (parseFloatOf (Str s)) with (parseFloatString s).
  change (ToNumberOf (Str s)) with (StringToNumber s).
  destruct (nonDecimal (trimStart s)) as [[x rest]|] eqn:Hn.
  { rewrite (parseFloatString_nonDecimal _ _ _ Hn).
    by destruct (trimStart s). }
  unfold parseFloatString, StringToNumber. rewrite Hn.
  destruct (trimStart s) as [|c t]; [done|]. cbn [isEmpty orb].
  destruct (decimal (String c t)) as [[x rest]|]; [|done].
  destruct (allWhiteSpace rest).
  - destruct (is_nan x) eqn:Hx; [|done]. by destruct x.
  - by destruct (is_nan x).
Qed.

(** X10. A price written as a hexadecimal, octal or binary literal
    ("0x1A") passes the test, since [Number] reads it, but [parseFloat]
    reads only its leading 0: the item is created with price 0. *)
Theorem non_decimal_price_is_zero e payload d l s x rest :
  loaded d = Arr l -> writable e = true ->
  truthy (prop payload "name") = true ->
  inEnumeration (prop payload "size") = true ->
  prop payload "price" = Str s ->
  nonDecimal (trimStart s) = Some (x, rest) ->
  allWhiteSpace rest = true -> is_finite x = true ->
  status (snd (handleCreateItem e (JSON payload) d)) = 201%nat
  /\ prop (data (snd (handleCreateItem e (JSON payload) d))) "price"
     = Num (S754_zero false).
Proof.
  intros Hd Hw Hname Hsize Hprice Hn Hrest Hx.
  assert (Hpf : parseFloatOf (Str s) = S754_zero false)
    by apply (parseFloatString_nonDecimal _ _ _ Hn).
  assert (Hnum : ToNumberOf (Str s) = x).
  { change (ToNumberOf (Str s)) with (StringToNumber s).
    unfold StringToNumber. rewrite Hn, Hrest. by destruct (trimStart s). }
  assert (Hp : passesCreate payload = true).
  { unfold passesCreate. rewrite Hname, Hprice, Hpf, Hnum, Hx.
    rewrite (inEnumeration_truthy _ Hsize).
    unfold inEnumeration in Hsize. apply andb_prop in Hsize as [-> ->].
    destruct s; [done|reflexivity]. }
  rewrite (create_passes _ _ _ _ Hp Hw Hd). split; [done|].
  change (data (snd (_, sendJsonResponse _ _ _ (created e payload))))
    with (json (created e payload)).
  rewrite (json_created _ _ Hp), Hprice, Hpf. reflexivity.
Qed.

Lemma non_decimal_price_is_zero_witness :
  let payload := payloadOf (Str "Hat") (Str "0x1A") (Str "m") in
  (loaded None = Arr [] /\ writable anEnv = true
   /\ truthy (prop payload "name") = true
   /\ inEnumeration (prop payload "size") = true
   /\ prop payload "price" = Str "0x1A"
   /\ nonDecimal (trimStart "0x1A") = Some (of_Z 26, "")
   /\ allWhiteSpace "" = true /\ is_finite (of_Z 26) = true)
  /\ status (snd (handleCreateItem anEnv (JSON payload) None)) = 201%nat
  /\ prop (data (snd (handleCreateItem anEnv (JSON payload) None))) "price"
     = Num (S754_zero false).
Proof.
  split; [by vm_compute|].
  apply (non_decimal_price_is_zero anEnv
           (payloadOf (Str "Hat") (Str "0x1A") (Str "m")) None [] "0x1A"
           (of_Z 26) ""); by vm_compute.
Defined.

(** ** Slashes and query strings in the URL *)

Lemma split_not_nil sep s : split sep s <> [].
Proof.
  destruct s as [|c s]; simpl; [done|].
  destruct (Ascii.eqb c sep); [done|]. by destruct (split sep s).
Qed.

Lemma split_app sep a b :
  split sep (a ++ String sep b) = split sep a ++ split sep b.
Proof.
  induction a as [|c a IH]; simpl.
  - by rewrite Ascii.eqb_refl.
  - destruct (Ascii.eqb c sep); [by rewrite IH|].
    rewrite IH. pose proof (split_not_nil sep a).
    by destruct (split sep a).
Qed.

Lemma segments_app a b :
  segments (a ++ String "/" b) = segments a ++ segments b.
Proof. unfold segments. by rewrite split_app, List.filter_app. Qed.

Lemma apiServer_segments e req req' :
  method req = method req' -> body req = body req' ->
  segments (url req) = segments (url req') ->
  apiServer e req = apiServer e req'.
Proof. intros Hm Hb Hs. unfold apiServer. by rewrite Hm, Hb, Hs. Qed.

(** X12. Slashes only separate: a doubled slash counts as one and a slash
    at the end counts for nothing, so that /items/ is served as /items and
    //items//a as /items/a. *)
Theorem extra_slashes_ignored e m a b t :
  apiServer e {| method := m; url := a ++ "//" ++ b; body := t |}
  = apiServer e {| method := m; url := a ++ "/" ++ b; body := t |}
  /\ apiServer e {| method := m; url := a ++ "/"; body := t |}
     = apiServer e {| method := m; url := a; body := t |}.
Proof.
  split; apply apiServer_segments; try done; cbn [url].
  - change (a ++ "//" ++ b)%string with (a ++ String "/" ("/" ++ b))%string.
    change (a ++ "/" ++ b)%string with (a ++ String "/" b)%string.
    rewrite !segments_app.
    change ("/" ++ b)%string with ("" ++ String "/" b)%string.
    by rewrite segments_app.
  - change (a ++ "/")%string with (a ++ String "/" "")%string.
    rewrite segments_app. apply app_nil_r.
Qed.

(** X13. The query string is not taken off the URL: a request to /items
    followed by a query string is answered 404, like an unknown endpoint,
    whatever its method, and the file is not touched. *)
Theorem query_string_not_found e m q t d :
  apiServer e {| method := m; url := "/items?" ++ q; body := t |} d
  = (d, endpointNotFound).
Proof.
  unfold apiServer. cbn [url].
  assert (Hs : exists rest pieces,
             segments ("/items?" ++ q) = ("items?" ++ rest)%string :: pieces).
  { unfold segments. simpl.
    destruct (split "/" _) as [|piece pieces]; simpl; by eexists _, _. }
  destruct Hs as (rest & pieces & ->). reflexivity.
Qed.

(** ** Update of an id that is not there *)

Lemma indexOf_None itemId l :
  existsb (idIs itemId) l = false -> indexOf itemId l = None.
Proof.
  induction l as [|i l IH]; simpl; [done|].
  intros [-> Hl]%orb_false_iff. by rewrite IH.
Qed.

(** X14. On a collection with no item of the given id, an update whose
    body is JSON is answered 404 before any field is looked at, so also
    for a payload that would fail validation, and nothing is written. *)
Theorem update_unknown_id e itemId payload d l :
  loaded d = Arr l -> collection l ->
  existsb (idIs itemId) l = false ->
  handleUpdateItem e itemId (JSON payload) d = (afterLoad e d, notFound itemId).
Proof.
  intros Hd Hl Hno. unfold handleUpdateItem. run_io.
  rewrite readItems_eq, Hd. simpl.
  by rewrite (findIndex_collection _ _ Hl), (indexOf_None _ _ Hno).
Qed.

Lemma update_unknown_id_witness :
  let d := storeOf [anItem "a" "Shirt" 10 "m"] in
  let payload := Obj [("size", Str "huge")] in
  (loaded d = Arr [anItem "a" "Shirt" 10 "m"]
   /\ collection [anItem "a" "Shirt" 10 "m"]
   /\ existsb (idIs "b") [anItem "a" "Shirt" 10 "m"] = false)
  /\ handleUpdateItem anEnv "b" (JSON payload) d = (afterLoad anEnv d, notFound "b").
Proof.
  assert (Hc : collection [anItem "a" "Shirt" 10 "m"])
    by (repeat constructor; vm_compute; reflexivity).
  split; [by split_and!|].
  apply (update_unknown_id anEnv "b" (Obj [("size", Str "huge")])
           (storeOf [anItem "a" "Shirt" 10 "m"]) [anItem "a" "Shirt" 10 "m"]);
    [reflexivity | exact Hc | reflexivity].
Defined.

(** ** A write that fails *)

(** X15. When the payload passes every test and the file holds an array
    but cannot be written, create answers 500, its message ending with
    the message of the error that [writeItems] throws, and an existing
    file is left as it was. *)
Theorem create_write_failure e payload d l :
  passesCreate payload = true -> loaded d = Arr l -> writable e = false ->
  handleCreateItem e (JSON payload) d =
  (d, sendJsonResponse 500 false
        "Internal server error while creating item: Failed to persist items."
        Null).
Proof.
  unfold passesCreate, prop. intros Hp Hl Hw.
  unfold handleCreateItem, priceIsInvalid. run_io.
  destruct (get payload "name") as [name|]; simpl in *; [|done].
  destruct (get payload "price") as [price|]; simpl in *;
    [|by rewrite andb_false_r in Hp].
  destruct (get payload "size") as [[]|]; simpl in *;
    try by rewrite !andb_false_r in Hp.
  repeat (apply andb_prop in Hp; destruct Hp as [Hp ?]).
  unfold parseFloat, isFinite, isNaN.
  repeat match goal with
         | H : negb _ = true |- _ => apply negb_true_iff in H
         end.
  repeat match goal with H : _ = _ |- _ => rewrite H; simpl end.
  rewrite readItems_eq, Hl. simpl. rewrite writeItems_eq, Hw. simpl.
  by rewrite (afterLoad_unwritable _ _ Hw).
Qed.

Lemma create_write_failure_witness :
  let e := {| uuid := "a"; writable := false |} in
  let payload := payloadOf (Str "Hat") (Num (of_Z 4)) (Str "m") in
  (passesCreate payload = true /\ loaded None = Arr [] /\ writable e = false)
  /\ handleCreateItem e (JSON payload) None =
     (None, sendJsonResponse 500 false
        "Internal server error while creating item: Failed to persist items."
        Null).
Proof.
  split; [by vm_compute|].
  apply (create_write_failure {| uuid := "a"; writable := false |}
           (payloadOf (Str "Hat") (Num (of_Z 4)) (Str "m")) None []);
    by vm_compute.
Defined.

(** ** Identifiers stay distinct *)

Lemma perform_shape e o d l :
  uuid e <> "" -> loaded d = Arr l -> Forall validItem l ->
  exists l',
    loaded (fst (perform e o d)) = Arr l' /\ Forall validItem l'
    /\ (l' = l
        \/ (exists body w, o = Create body /\ l' = l ++ [w]
                           /\ prop w "id" = Str (uuid e))
        \/ (exists index item w,
              l !! index = Some item /\ l' = <[index := w]> l
              /\ prop w "id" = prop item "id")
        \/ (exists itemId, l' = without itemId l)).
Proof.
  intros Hid Hd Hl. pose proof (validItems_collection _ Hl) as Hc.
  destruct (perform_preserves e o d l Hid Hd Hl) as (l' & Hl' & Hv).
  exists l'. split; [done|]. split; [done|].
  destruct o as [body|itemId body|itemId]; simpl in Hl'.
  - destruct (decide (status (snd (handleCreateItem e body d)) = 201%nat))
      as [H201|Hne].
    + destruct body as [| |payload]; try done.
      apply create_201 in H201 as (Hp & Hw & l0 & Hd0 & Heq).
      rewrite Heq, Hd in *. simplify_eq. simpl in Hl'.
      rewrite json_collection_app in Hl' by done. simplify_eq.
      right; left. eexists _, _. split_and!; [done..|].
      unfold jsonElement. simpl. by rewrite (json_created _ _ Hp).
    + rewrite (create_not_201 _ _ _ Hne), Hd in Hl'. left. by simplify_eq.
  - destruct body as [| |payload];
      [left; simpl in Hl'; rewrite Hd in Hl'; by simplify_eq..|].
    destruct (update_outcome e itemId payload d) as (H200 & Hother & _).
    destruct (decide (status (snd (handleUpdateItem e itemId (JSON payload) d))
                      = 200%nat)) as [Hs|Hs].
    + destruct (H200 Hs) as (l0 & index & Hd0 & Hf & Hw & Hr & Hp & Heq).
      rewrite Heq, Hd in *. simplify_eq.
      destruct (findIndex_Some _ _ _ Hf) as (item & Hitem & Hobj).
      rewrite Hitem in Hl'. simpl in Hl'.
      rewrite json_collection_insert in Hl' by done. simplify_eq.
      assert (Hst : storedItem item) by (eapply Forall_lookup_1; eauto).
      assert (Ho : isObject (updated item payload) = true).
      { unfold updated. repeat apply set_object. apply Hst. }
      assert (Hel : jsonElement (updated item payload)
                    = json (updated item payload))
        by (by destruct (updated item payload)).
      right; right; left. eexists _, _, _. split_and!; [done..|].
      rewrite Hel. by apply written_fields.
    + rewrite (Hother Hs), loaded_afterLoad, Hd in Hl'. left. by simplify_eq.
  - rewrite (delete_collection e itemId d l Hd Hc) in Hl'.
    destruct (existsb (idIs itemId) l); [destruct (writable e)|];
      simpl in Hl'; rewrite ?loaded_afterLoad, ?Hd in Hl'; simplify_eq;
      [right; right; right; by eexists | by left..].
Qed.

Lemma ids_app l w : ids (l ++ [w]) = ids l ++ [prop w "id"].
Proof. unfold ids. by rewrite map_app. Qed.

Lemma ids_insert l index item w :
  l !! index = Some item -> prop w "id" = prop item "id" ->
  ids (<[index := w]> l) = ids l.
Proof.
  intros Hitem Hw. revert index Hitem.
  induction l as [|i l IH]; intros [|index] Hitem; simpl in *; try done.
  - simplify_eq. by rewrite Hw.
  - by rewrite IH.
Qed.

Lemma ids_without_In itemId l x :
  In x (ids (without itemId l)) -> In x (ids l).
Proof.
  induction l as [|i l IH]; simpl; [done|].
  destruct (idIs itemId i); simpl; intuition.
Qed.

Lemma ids_without itemId l :
  List.NoDup (ids l) -> List.NoDup (ids (without itemId l)).
Proof.
  induction l as [|i l IH]; simpl; [done|].
  intros [Hi Hnd]%List.NoDup_cons_iff.
  destruct (idIs itemId i); simpl; [by apply IH|].
  apply List.NoDup_cons; [|by apply IH].
  intros Hc. apply Hi. by apply ids_without_In in Hc.
Qed.

Lemma fresh_id itemId l :
  existsb (idIs itemId) l = false -> ~ In (Str itemId) (ids l).
Proof.
  induction l as [|i l IH]; simpl; [tauto|].
  intros [Hi Hl]%orb_false_iff [Heq|Hin]; [|by apply IH].
  unfold idIs in Hi. rewrite Heq in Hi. simpl in Hi.
  by rewrite String.eqb_refl in Hi.
Qed.

(** X11. Starting from an empty collection, if every create draws an
    identifier that is not empty and that no item has at that moment, then
    after any sequence of creates, updates and deletes no two items of the
    file have the same id. *)
Theorem ids_stay_distinct trace d :
  loaded d = Arr [] ->
  Forall (fun step => uuid (fst step) <> "") trace ->
  freshRun trace d ->
  List.NoDup (ids (elementsOf (loaded (run trace d)))).
Proof.
  intros Hd Hids Hfresh.
  assert (Hinv : exists l, loaded d = Arr l /\ Forall validItem l
                           /\ List.NoDup (ids l))
    by (exists []; split_and!; [done|constructor|constructor]).
  clear Hd. revert d Hinv Hfresh.
  induction Hids as [|[e o] trace He _ IH]; intros d Hinv Hfresh; simpl.
  { destruct Hinv as (l & -> & _ & Hnd). done. }
  destruct Hfresh as [Hnew Hfresh].
  apply IH; [|done]. destruct Hinv as (l & Hd & Hl & Hnd).
  destruct (perform_shape e o d l He Hd Hl) as (l' & Hl' & Hv & Hshape).
  exists l'. split_and!; [done..|].
  destruct Hshape as [->|[(body & w & -> & -> & Hw)|
                         [(index & item & w & Hitem & -> & Hw)|(itemId & ->)]]].
  - done.
  - rewrite ids_app, Hw. rewrite Hd in Hnew. simpl in Hnew.
    apply fresh_id in Hnew. clear -Hnd Hnew.
    induction (ids l) as [|x xs IHx]; simpl.
    + constructor; [simpl; tauto|constructor].
    + apply List.NoDup_cons_iff in Hnd as [Hx Hnd].
      apply List.NoDup_cons.
      * rewrite in_app_iff. simpl. intros [?|[?|[]]]; [done|].
        apply Hnew. left. done.
      * apply IHx; [done|]. intros ?. apply Hnew. by right.
  - by rewrite (ids_insert _ _ _ _ Hitem Hw).
  - by apply ids_without.
Qed.

Lemma ids_stay_distinct_witness :
  let e1 := {| uuid := "a"; writable := true |} in
  let e2 := {| uuid := "b"; writable := true |} in
  let trace :=
    [(e1, Create (JSON (payloadOf (Str "Shirt") (Num (of_Z 10)) (Str "M"))));
     (e2, Create (JSON (payloadOf (Str "Hat") (Num (of_Z 3)) (Str "s"))));
     (e2, Update "a" (JSON (Obj [("price", Str "12")])));
     (e1, Delete "b")] in
  (loaded None = Arr []
   /\ Forall (fun step => uuid (fst step) <> "") trace
   /\ freshRun trace None)
  /\ List.NoDup (ids (elementsOf (loaded (run trace None)))).
Proof.
  intros e1 e2 trace.
  assert (Hids : Forall (fun step => uuid (fst step) <> "") trace)
    by (repeat constructor; done).
  assert (Hfresh : freshRun trace None) by (vm_compute; tauto).
  split; [by split_and!|].
  by apply (ids_stay_distinct trace None eq_refl Hids Hfresh).
Defined.

(** ** The static file server *)

Lemma web_index fs req :
  WebServer.url req = "/" \/ WebServer.url req = "/index.html" ->
  WebServer.webServer fs req
  = WebServer.serveFile fs "index.html" "text/html" None.
Proof.
  unfold WebServer.webServer. by intros [->| ->].
Qed.

Lemma web_other fs req :
  WebServer.url req <> "/" -> WebServer.url req <> "/index.html" ->
  WebServer.webServer fs req = WebServer.serve404Page fs.
Proof.
  intros H1 H2. unfold WebServer.webServer.
  destruct (String.eqb_spec (WebServer.url req) "/"); [done|].
  destruct (String.eqb_spec (WebServer.url req) "/index.html"); [done|].
  by destruct (WebServer.endsWith ".html" (WebServer.url req)).
Qed.

Lemma serve404Page_status fs :
  WebServer.statusCode (WebServer.serve404Page fs) =
  match fs "404.html" with Some _ => 404%nat | None => 500%nat end.
Proof.
  unfold WebServer.serve404Page. by destruct (fs "404.html").
Qed.

Lemma not_200 (page : option string) :
  match page with Some _ => 404%nat | None => 500%nat end <> 200%nat.
Proof. destruct page; lia. Qed.

(** X16. The file server answers 200 exactly for the paths / and
    /index.html while index.html can be read, and the reply is then the
    content of index.html as text/html. *)
Theorem web_200_is_the_index fs req :
  (WebServer.statusCode (WebServer.webServer fs req) = 200%nat
   <-> (WebServer.url req = "/" \/ WebServer.url req = "/index.html")
       /\ is_Some (fs "index.html"))
  /\ (forall page,
        WebServer.url req = "/" \/ WebServer.url req = "/index.html" ->
        fs "index.html" = Some page ->
        WebServer.webServer fs req =
        {| WebServer.statusCode := 200;
           WebServer.contentType := "text/html";
           WebServer.content := page |}).
Proof.
  assert (Hserved : forall page,
            WebServer.url req = "/" \/ WebServer.url req = "/index.html" ->
            fs "index.html" = Some page ->
            WebServer.webServer fs req =
            {| WebServer.statusCode := 200;
               WebServer.contentType := "text/html";
               WebServer.content := page |}).
  { intros page Hurl Hpage. rewrite web_index by done.
    unfold WebServer.serveFile. by rewrite Hpage. }
  split; [split|exact Hserved].
  - intros H200.
    destruct (String.eqb_spec (WebServer.url req) "/") as [Hroot|Hroot];
      [|destruct (String.eqb_spec (WebServer.url req) "/index.html")
          as [Hindex|Hindex]].
    1, 2: split; [auto|]; rewrite web_index in H200 by auto;
      unfold WebServer.serveFile in H200;
      destruct (fs "index.html") as [page|]; [by eexists|];
      rewrite serve404Page_status in H200; by apply not_200 in H200.
    rewrite web_other, serve404Page_status in H200 by done.
    by apply not_200 in H200.
  - intros [Hurl [page Hpage]]. by rewrite (Hserved page Hurl Hpage).
Qed.

Lemma web_200_is_the_index_witness :
  let fs := fun name : string =>
    if String.eqb name "index.html" then Some "<h1>Student</h1>" else None in
  let req := {| WebServer.method := "GET"; WebServer.url := "/" |} in
  (WebServer.url req = "/" \/ WebServer.url req = "/index.html")
  /\ fs "index.html" = Some "<h1>Student</h1>"
  /\ WebServer.webServer fs req =
     {| WebServer.statusCode := 200;
        WebServer.contentType := "text/html";
        WebServer.content := "<h1>Student</h1>" |}.
Proof.
  intros fs req. split; [by left|]. split; [reflexivity|].
  apply (proj2 (web_200_is_the_index fs req) "<h1>Student</h1>");
    [by left | reflexivity].
Defined.

(** X17. Every path other than / and /index.html is answered with the
    not-found page, whether or not it ends in .html and whatever the
    method: 404 with the content of 404.html as text/html, or, when that
    file cannot be read, 500 with a fixed plain text. *)
Theorem web_other_paths fs req :
  WebServer.url req <> "/" -> WebServer.url req <> "/index.html" ->
  WebServer.webServer fs req =
  match fs "404.html" with
  | Some page =>
      {| WebServer.statusCode := 404; WebServer.contentType := "text/html";
         WebServer.content := page |}
  | None =>
      {| WebServer.statusCode := 500; WebServer.contentType := "text/plain";
         WebServer.content := "500 Internal Server Error: 404 page not found." |}
  end.
Proof.
  intros H1 H2. by rewrite web_other.
Qed.

Lemma web_other_paths_witness :
  let fs := fun name : string =>
    if String.eqb name "404.html" then Some "gone" else None in
  let req := {| WebServer.method := "POST"; WebServer.url := "/about.html" |} in
  (WebServer.url req <> "/" /\ WebServer.url req <> "/index.html")
  /\ WebServer.webServer fs req =
     {| WebServer.statusCode := 404; WebServer.contentType := "text/html";
        WebServer.content := "gone" |}.
Proof.
  split; [by split|].
  apply (web_other_paths
           (fun name : string =>
              if String.eqb name "404.html" then Some "gone" else None)
           {| WebServer.method := "POST"; WebServer.url := "/about.html" |});
    done.
Defined.

(** X18. When index.html cannot be read, every request, the one for the
    index included, gets the reply of the not-found page: the 500 of a
    missing 404.html is the only other failure there is. *)
Theorem web_without_index fs req :
  fs "index.html" = None ->
  WebServer.webServer fs req = WebServer.serve404Page fs
  /\ (WebServer.statusCode (WebServer.webServer fs req) = 500%nat
      <-> fs "404.html" = None).
Proof.
  intros Hi.
  assert (Heq : WebServer.webServer fs req = WebServer.serve404Page fs).
  { destruct (String.eqb_spec (WebServer.url req) "/") as [Hroot|Hroot];
      [|destruct (String.eqb_spec (WebServer.url req) "/index.html")
          as [Hindex|Hindex]].
    1, 2: rewrite web_index by auto; unfold WebServer.serveFile; by rewrite Hi.
    by apply web_other. }
  split; [done|]. rewrite Heq, serve404Page_status.
  destruct (fs "404.html"); split; intros; try done; lia.
Qed.

Lemma web_without_index_witness :
  let fs := fun name : string => @None string in
  let req := {| WebServer.method := "GET"; WebServer.url := "/" |} in
  fs "index.html" = None
  /\ WebServer.webServer fs req = WebServer.serve404Page fs
  /\ (WebServer.statusCode (WebServer.webServer fs req) = 500%nat
      <-> fs "404.html" = None).
Proof.
  split; [reflexivity|].
  apply (web_without_index (fun name : string => @None string)
           {| WebServer.method := "GET"; WebServer.url := "/" |}).
  reflexivity.
Defined.

(** ** Writing, then loading *)

(** X19. What [writeItems] writes for a collection, [readItems] loads back
    as the same collection, without touching the file again. *)
Theorem write_then_read e e' l d :
  writable e = true -> collection l ->
  readItems e' (fst (writeItems e (Arr l) d)) = (Some (JSON (Arr l)), Arr l).
Proof.
  intros Hw Hl. by rewrite writeItems_eq, Hw, readItems_eq, json_collection.
Qed.

Lemma write_then_read_witness :
  (writable anEnv = true /\ collection [anItem "a" "Shirt" 10 "m"])
  /\ readItems {| uuid := "b"; writable := false |}
       (fst (writeItems anEnv (Arr [anItem "a" "Shirt" 10 "m"]) None))
     = (Some (JSON (Arr [anItem "a" "Shirt" 10 "m"])),
        Arr [anItem "a" "Shirt" 10 "m"]).
Proof.
  assert (Hc : collection [anItem "a" "Shirt" 10 "m"])
    by (repeat constructor; vm_compute; reflexivity).
  split; [by split|].
  apply (write_then_read anEnv {| uuid := "b"; writable := false |}
           [anItem "a" "Shirt" 10 "m"] None); [reflexivity | exact Hc].
Defined.

(** ** Create, then delete *)

Lemma without_absent itemId l :
  existsb (idIs itemId) l = false -> without itemId l = l.
Proof.
  induction l as [|i l IH]; simpl; [done|].
  intros [Hi Hl]%orb_false_iff. rewrite Hi. simpl.
  f_equal. by apply IH.
Qed.

(** X20. On a collection with no item under the identifier drawn, deleting
    the item that a create has just added gives back the collection as it
    was before the create. *)
Theorem delete_undoes_create e e' body d l :
  loaded d = Arr l -> collection l ->
  existsb (idIs (uuid e)) l = false ->
  status (snd (handleCreateItem e body d)) = 201%nat ->
  writable e' = true ->
  handleDeleteItem e' (uuid e) (fst (handleCreateItem e body d))
  = (Some (JSON (Arr l)),
     sendJsonResponse 200 true "Item deleted successfully." Null).
Proof.
  intros Hd Hl Hfresh H201 Hw.
  destruct body as [| |payload]; try done.
  apply create_201 in H201 as (Hp & _ & l' & Hd' & ->).
  rewrite Hd in Hd'. injection Hd' as <-. cbn [fst].
  rewrite json_collection_app by done.
  assert (Hw' : jsonElement (created e payload) = json (created e payload))
    by reflexivity.
  rewrite Hw'.
  assert (Hid : idIs (uuid e) (json (created e payload)) = true).
  { rewrite (json_created _ _ Hp). unfold idIs. simpl. apply String.eqb_refl. }
  erewrite delete_collection; [|reflexivity|].
  - rewrite existsb_app. simpl. rewrite Hid, orb_true_r, Hw.
    unfold without. rewrite List.filter_app. simpl. rewrite Hid. simpl.
    rewrite app_nil_r. fold (without (uuid e) l).
    by rewrite without_absent.
  - apply Forall_app. split; [done|].
    constructor; [|constructor]. apply storedItem_json_object.
Qed.

Lemma delete_undoes_create_witness :
  let l := [anItem "a" "Shirt" 10 "m"] in
  let body := JSON (payloadOf (Str "Hat") (Str "4.5") (Str "L")) in
  (loaded (storeOf l) = Arr l /\ collection l
   /\ existsb (idIs (uuid anEnv)) l = false
   /\ status (snd (handleCreateItem anEnv body (storeOf l))) = 201%nat
   /\ writable anEnv = true)
  /\ handleDeleteItem anEnv (uuid anEnv)
       (fst (handleCreateItem anEnv body (storeOf l)))
     = (Some (JSON (Arr l)),
        sendJsonResponse 200 true "Item deleted successfully." Null).
Proof.
  intros l body.
  assert (Hc : collection l) by (repeat constructor; vm_compute; reflexivity).
  split; [split_and!; [reflexivity | exact Hc | by vm_compute..]|].
  apply (delete_undoes_create anEnv anEnv body (storeOf l) l);
    [reflexivity | exact Hc | by vm_compute..].
Defined.

(** ** An update that names no field *)

Lemma assign_same k v props :
  lookup k props = Some v -> assign k v props = props.
Proof.
  induction props as [|[k' v'] props IH]; simpl; [done|].
  destruct (String.eqb_spec k' k) as [->|Hk].
  - by intros [= ->].
  - intros H. by rewrite IH.
Qed.

Lemma set_same item k :
  isDefined (prop item k) = true -> set item k (prop item k) = item.
Proof.
  destruct item as [| | | | | |props]; try done.
  unfold prop. simpl.
  destruct (lookup k props) as [v|] eqn:Hk; [|done].
  intros _. simpl. by rewrite assign_same.
Qed.

(** X21. An update whose payload has none of name, price and size (the
    empty object, or unknown fields only) answers 200 with the item as it
    is and leaves the file exactly as it was: fields the server does not
    know are ignored.  The item is one that has the three fields. *)
Theorem update_without_fields e itemId payload d l index item :
  loaded d = Arr l -> collection l ->
  indexOf itemId l = Some index -> l !! index = Some item ->
  isDefined (prop item "name") = true ->
  isDefined (prop item "price") = true ->
  isDefined (prop item "size") = true ->
  writable e = true -> readable payload = true ->
  prop payload "name" = Undefined ->
  prop payload "price" = Undefined ->
  prop payload "size" = Undefined ->
  handleUpdateItem e itemId (JSON payload) d
  = (d, sendJsonResponse 200 true "Item updated successfully." item).
Proof.
  intros Hd Hl Hindex Hitem Hn Hp Hs Hw Hr Hpn Hpp Hps.
  assert (Hf : findIndex (hasId itemId) l = Ok (Some index))
    by (by rewrite findIndex_collection, Hindex).
  assert (Hpass : passesUpdate payload = true)
    by (unfold passesUpdate; by rewrite Hpp, Hps).
  rewrite (update_passes _ _ _ _ _ _ Hd Hf Hw Hr Hpass), Hitem.
  assert (Hu : updated item payload = item).
  { unfold updated. rewrite Hpn, Hpp, Hps. simpl.
    by rewrite (set_same _ _ Hn), (set_same _ _ Hp), (set_same _ _ Hs). }
  simpl default. rewrite Hu, list_insert_id, json_collection by done.
  f_equal. destruct d as [[| |v]|]; simpl in Hd; simplify_eq; done.
Qed.

Lemma update_without_fields_witness :
  let l := [anItem "a" "Shirt" 10 "m"; anItem "b" "Hat" 3 "s"] in
  let payload := Obj [("color", Str "red")] in
  (loaded (storeOf l) = Arr l /\ collection l
   /\ indexOf "b" l = Some 1%nat /\ l !! 1%nat = Some (anItem "b" "Hat" 3 "s")
   /\ isDefined (prop (anItem "b" "Hat" 3 "s") "name") = true
   /\ isDefined (prop (anItem "b" "Hat" 3 "s") "price") = true
   /\ isDefined (prop (anItem "b" "Hat" 3 "s") "size") = true
   /\ writable anEnv = true /\ readable payload = true
   /\ prop payload "name" = Undefined
   /\ prop payload "price" = Undefined
   /\ prop payload "size" = Undefined)
  /\ handleUpdateItem anEnv "b" (JSON payload) (storeOf l)
     = (storeOf l,
        sendJsonResponse 200 true "Item updated successfully."
          (anItem "b" "Hat" 3 "s")).
Proof.
  intros l payload.
  assert (Hc : collection l) by (repeat constructor; vm_compute; reflexivity).
  split; [split_and!; first [exact Hc | reflexivity]|].
  apply (update_without_fields anEnv "b" payload (storeOf l) l 1%nat
           (anItem "b" "Hat" 3 "s"));
    first [exact Hc | reflexivity].
Defined.

(** ** The segments of a URL *)

Lemma split_no_separator sep s piece :
  In piece (split sep s) -> String.index 0 (String sep "") piece = None.
Proof.
  revert piece. induction s as [|c s IH]; intros piece; simpl.
  - by intros [<-|[]].
  - destruct (Ascii.eqb_spec c sep) as [->|Hc].
    + intros [<-|Hin]; [done|by apply IH].
    + pose proof (split_not_nil sep s) as Hne.
      destruct (split sep s) as [|first pieces]; [done|].
      intros [<-|Hin]; [|apply IH; by right].
      simpl. destruct (Ascii.ascii_dec sep c) as [->|_]; [done|].
      assert (Hfirst : String.index 0 (String sep "") first = None)
        by (apply IH; by left).
      destruct first as [|c' first']; [done|].
      simpl in Hfirst |- *.
      destruct (Ascii.ascii_dec sep c'); [|by rewrite Hfirst].
      by destruct first'.
Qed.

(** X22. Every segment the router reads off the URL is a non-empty string
    that holds no slash: the itemId handed to a handler is never the empty
    string, so that it is truthy exactly when it is there. *)
Theorem segments_are_not_empty url piece :
  In piece (segments url) ->
  piece <> "" /\ String.index 0 "/" piece = None.
Proof.
  unfold segments. intros [Hin Hne]%filter_In. split.
  - by destruct piece.
  - by apply (split_no_separator "/" url).
Qed.

Lemma segments_are_not_empty_witness :
  In "a" (segments "//items/a/")
  /\ "a" <> "" /\ String.index 0 "/" "a" = None.
Proof.
  split; [vm_compute; tauto|].
  apply (segments_are_not_empty "//items/a/" "a"). vm_compute; tauto.
Defined.
